(** * Vibe: rendezvous and signalling core of the random video chat client

    A shallow embedding of [class VibeApp]: the shared Firebase Realtime
    Database is a record of tables, each database call of the client is one
    atomic operation on it, and every [async] method is cut at its [await]s
    into segments that run to completion, so that the interleavings of
    several clients (and of several handlers of one client) are lists of
    events. *)

From stdpp Require Import gmap strings list pretty.

Open Scope string_scope.
Open Scope list_scope.
Open Scope Z_scope.

(** ** The database *)

(** [queue/<uid>]: [joinQueue] writes [{uid, timestamp}], the reservation
    transaction of [attemptMatch] writes the child [reservedBy]. A child that
    was never written is [None]. *)
Record QueueEntry := mkQueueEntry {
  qe_uid : option string;
  qe_timestamp : option Z;
  qe_reservedBy : option string
}.

(** [rooms/<roomId>] as [createMatch] writes it. The signalling children
    ([offer], [answer], the candidate lists) are the business of [Module
    Relay] below. *)
Record Room := mkRoom {
  createdBy : string;
  createdAt : Z;
  participants : list string
}.

(** The queue is kept as a list ordered by key: [Object.keys] of a snapshot
    enumerates the children in key order (client ids are ['user_...']
    strings), and [joinQueue] takes the first one that passes its filter. *)
Record Store := mkStore {
  queue : list (string * QueueEntry);
  matches : gmap string string;
  rooms : gmap string Room;
  reports : gmap string Z
}.

Definition empty_store : Store := mkStore [] ∅ ∅ ∅.

Fixpoint queue_get (k : string) (q : list (string * QueueEntry)) : option QueueEntry :=
  match q with
  | [] => None
  | (k', e) :: q' => if String.eqb k k' then Some e else queue_get k q'
  end.

Fixpoint queue_put (k : string) (e : QueueEntry) (q : list (string * QueueEntry))
  : list (string * QueueEntry) :=
  match q with
  | [] => [(k, e)]
  | (k', e') :: q' =>
      match String.compare k k' with
      | Eq => (k, e) :: q'
      | Lt => (k, e) :: (k', e') :: q'
      | Gt => (k', e') :: queue_put k e q'
      end
  end.

Fixpoint queue_del (k : string) (q : list (string * QueueEntry))
  : list (string * QueueEntry) :=
  match q with
  | [] => []
  | (k', e') :: q' => if String.eqb k k' then queue_del k q' else (k', e') :: queue_del k q'
  end.

(** [Object.keys(snapshot.val())]; an empty queue reads as [null], which
    [joinQueue] treats like no keys at all. *)
Definition queue_keys (q : list (string * QueueEntry)) : list string := q.*1.

(** The child [queue/<uid>/reservedBy]. *)
Definition get_reservedBy (uid : string) (s : Store) : option string :=
  match queue_get uid (queue s) with
  | Some e => qe_reservedBy e
  | None => None
  end.

(** Writing a child creates the parent when it is missing and leaves the
    sibling children alone. *)
Definition set_reservedBy (uid : string) (v : string) (s : Store) : Store :=
  let e := default (mkQueueEntry None None None) (queue_get uid (queue s)) in
  mkStore (queue_put uid (mkQueueEntry (qe_uid e) (qe_timestamp e) (Some v)) (queue s))
          (matches s) (rooms s) (reports s).

(** [ref.transaction(update)]: the database runs [update] on the current
    value of the location, atomically; [undefined] (here [None]) aborts and
    the result has [committed = false]. *)
Definition transaction {V} (update : option V → option V) (current : option V)
  : bool * option V :=
  match update current with
  | Some v => (true, Some v)
  | None => (false, current)
  end.

(** [current === null ? this.uid : undefined] *)
Definition reserve_update (uid : string) (current : option string) : option string :=
  match current with
  | None => Some uid
  | Some _ => None
  end.

(** [current || 0]: [null] and [0] are both falsy. Counts are integers far
    below 2^53, where the addition of JavaScript numbers is exact. *)
Definition or_zero (current : option Z) : Z :=
  match current with
  | Some n => if n =? 0 then 0 else n
  | None => 0
  end.

(** [(current) => (current || 0) + 1] *)
Definition report_update (current : option Z) : option Z := Some (or_zero current + 1).

(** One entry of the object given to [db.ref().update]: a path and its new
    value, [null] deleting the location. *)
Inductive Write :=
| W_match (uid : string) (v : option string)
| W_room (roomId : string) (v : option Room)
| W_queue (uid : string) (v : option QueueEntry).

Definition apply_write (s : Store) (w : Write) : Store :=
  match w with
  | W_match u (Some r) => mkStore (queue s) (<[u := r]> (matches s)) (rooms s) (reports s)
  | W_match u None => mkStore (queue s) (delete u (matches s)) (rooms s) (reports s)
  | W_room r (Some v) => mkStore (queue s) (matches s) (<[r := v]> (rooms s)) (reports s)
  | W_room r None => mkStore (queue s) (matches s) (delete r (rooms s)) (reports s)
  | W_queue u (Some e) => mkStore (queue_put u e (queue s)) (matches s) (rooms s) (reports s)
  | W_queue u None => mkStore (queue_del u (queue s)) (matches s) (rooms s) (reports s)
  end.

(** The operations the client issues against the database. Each is applied
    atomically; what an observer can see of the database is the sequence of
    states between operations. *)
Inductive StoreOp :=
| Op_queue_set (uid : string) (ts : Z)
| Op_queue_remove (uid : string)
| Op_reserve (self other : string)
| Op_update (batch : list Write)
| Op_match_remove (uid : string)
| Op_report (target : string).

Definition exec_op (op : StoreOp) (s : Store) : Store :=
  match op with
  | Op_queue_set u ts =>
      apply_write s (W_queue u (Some (mkQueueEntry (Some u) (Some ts) None)))
  | Op_queue_remove u => apply_write s (W_queue u None)
  | Op_reserve self other =>
      match transaction (reserve_update self) (get_reservedBy other s) with
      | (true, Some v) => set_reservedBy other v s
      | _ => s
      end
  | Op_update batch => foldl apply_write s batch
  | Op_match_remove u => apply_write s (W_match u None)
  | Op_report target =>
      match transaction report_update (reports s !! target) with
      | (true, Some n) => mkStore (queue s) (matches s) (rooms s) (<[target := n]> (reports s))
      | _ => s
      end
  end.

(** [result.committed] of the transaction [Op_reserve self other] run on [s]. *)
Definition committed (self other : string) (s : Store) : bool :=
  (transaction (reserve_update self) (get_reservedBy other s)).1.

Definition exec_ops (ops : list StoreOp) (s : Store) : Store :=
  foldl (λ s op, exec_op op s) s ops.

(** ** The client *)

(** Which of [startCall] (caller) and [answerCall] (callee) created the
    peer connection. *)
Inductive Role := Caller | Callee.

(** The three [setTimeout(() => { this.joinQueue(); }, ..)] of the class:
    [handleNext] (500), [handleCallEnded] (1000), [handleConnectionError]
    (2000). *)
Inductive TimerKind := Rejoin_skip | Rejoin_ended | Rejoin_error.

Record Timer := mkTimer { t_id : nat; t_due : Z; t_kind : TimerKind }.

(** An [await] in flight: the database call that was issued and the rest of
    the method that waits for it. *)
Inductive Task :=
| K_queue_set
| K_queue_once
| K_reserve (roomId otherUid : string)
| K_update (roomId otherUid : string)
| K_participants (roomId : string)
| K_report (targetUid : string).

(** The fields of [VibeApp] the matching logic reads or writes. Several
    listeners on [matchRef] behave like one, because [handleMatchFound] is
    synchronous and guarded by [currentRoom]; [matchListener] says whether
    there is one. *)
Record VibeApp := mkApp {
  uid : string;
  currentRoom : option string;
  peerConnection : option Role;
  isConnected : bool;
  matchTimeout : option nat;
  blockedUsers : list string;
  matchListener : bool
}.

(** What the page has besides the object: the item [vibe_blocked_users] of
    [localStorage] (a JSON array of strings) and the pending timers. [fired]
    records the timers whose callback has run. *)
Record Browser := mkBrowser {
  stored_blocked : option (list string);
  timers : list Timer;
  next_timer : nat;
  fired : list Timer
}.

Record Sys := mkSys {
  db : Store;
  app : VibeApp;
  browser : Browser;
  pending : list Task;
  clock : Z;
  trace : list StoreOp
}.

(** Code of a method between two [await]s. *)
Definition M (A : Type) : Type := Sys → A * Sys.

#[local] Instance M_ret : MRet M := λ A x s, (x, s).
#[local] Instance M_bind : MBind M := λ A B f m s, let '(x, s') := m s in f x s'.

Definition get : M Sys := λ s, (s, s).
Definition put_db (d : Store) : M unit :=
  λ s, (tt, mkSys d (app s) (browser s) (pending s) (clock s) (trace s)).
Definition put_app (a : VibeApp) : M unit :=
  λ s, (tt, mkSys (db s) a (browser s) (pending s) (clock s) (trace s)).
Definition put_browser (b : Browser) : M unit :=
  λ s, (tt, mkSys (db s) (app s) b (pending s) (clock s) (trace s)).
Definition spawn (k : Task) : M unit :=
  λ s, (tt, mkSys (db s) (app s) (browser s) (pending s ++ [k]) (clock s) (trace s)).

(** A database call: applied atomically and appended to the history. *)
Definition db_do (op : StoreOp) : M unit :=
  λ s, (tt, mkSys (exec_op op (db s)) (app s) (browser s) (pending s) (clock s)
                  (trace s ++ [op])).

Definition exec {A} (m : M A) (s : Sys) : Sys := (m s).2.

Definition set_currentRoom (r : option string) (a : VibeApp) : VibeApp :=
  mkApp (uid a) r (peerConnection a) (isConnected a) (matchTimeout a) (blockedUsers a)
        (matchListener a).
Definition set_peerConnection (p : option Role) (a : VibeApp) : VibeApp :=
  mkApp (uid a) (currentRoom a) p (isConnected a) (matchTimeout a) (blockedUsers a)
        (matchListener a).
Definition set_isConnected (b : bool) (a : VibeApp) : VibeApp :=
  mkApp (uid a) (currentRoom a) (peerConnection a) b (matchTimeout a) (blockedUsers a)
        (matchListener a).
Definition set_matchTimeout (t : option nat) (a : VibeApp) : VibeApp :=
  mkApp (uid a) (currentRoom a) (peerConnection a) (isConnected a) t (blockedUsers a)
        (matchListener a).
Definition set_blockedUsers (l : list string) (a : VibeApp) : VibeApp :=
  mkApp (uid a) (currentRoom a) (peerConnection a) (isConnected a) (matchTimeout a) l
        (matchListener a).
Definition set_matchListener (b : bool) (a : VibeApp) : VibeApp :=
  mkApp (uid a) (currentRoom a) (peerConnection a) (isConnected a) (matchTimeout a)
        (blockedUsers a) b.

Definition modify_app (f : VibeApp → VibeApp) : M unit := s ← get; put_app (f (app s)).

(** Truthiness of a string that may be [null] or [undefined]. *)
Definition truthy (v : option string) : bool :=
  match v with
  | Some s => negb (String.eqb s "")
  | None => false
  end.

(** [setTimeout(() => this.joinQueue(), delay)], returning the timer id. *)
Definition setTimeout (kind : TimerKind) (delay : Z) : M nat :=
  s ← get;
  let b := browser s in
  put_browser (mkBrowser (stored_blocked b)
                 (timers b ++ [mkTimer (next_timer b) (clock s + delay) kind])
                 (S (next_timer b)) (fired b)) ;;
  mret (next_timer b).

(** [clearTimeout(id)]; a [null] or stale id clears nothing. *)
Definition clearTimeout (id : option nat) : M unit :=
  s ← get;
  let b := browser s in
  match id with
  | Some i =>
      put_browser (mkBrowser (stored_blocked b)
                     (filter (λ t, t_id t ≠ i) (timers b)) (next_timer b) (fired b))
  | None => mret tt
  end.

(** ** Methods of [VibeApp] *)

(** ['room_' + Math.random().toString(36).substr(2, 9) + Date.now()]; [rnd]
    is the digit string drawn from [Math.random]. *)
Definition generateRoomId (rnd : string) (now : Z) : string :=
  "room_" +:+ rnd +:+ pretty now.

(** [Object.keys(queueData).filter(uid => uid !== this.uid &&
    !this.blockedUsers.includes(uid))] *)
Definition otherUsers (keys : list string) (self : string) (blocked : list string)
  : list string :=
  filter (λ u, u ≠ self ∧ u ∉ blocked) keys.

(** [otherUsers.length > 0] and then [otherUsers[0]]: the partner [joinQueue]
    goes for, if any. *)
Definition findPartner (keys : list string) (self : string) (blocked : list string)
  : option string :=
  head (otherUsers keys self blocked).

Definition cleanup : M unit :=
  modify_app (set_peerConnection None) ;;
  modify_app (set_matchListener false) ;;
  s ← get;
  (if truthy (currentRoom (app s))
   then db_do (Op_match_remove (uid (app s))) ;; modify_app (set_currentRoom None)
   else mret tt) ;;
  db_do (Op_queue_remove (uid (app s))) ;;
  modify_app (set_isConnected false).

(** [joinQueue] up to its first [await]: the [set] of the own entry is on
    its way. *)
Definition joinQueue : M unit := spawn K_queue_set.

(** [handleNext]: clean up, then debounce the rejoin. *)
Definition handleNext : M unit :=
  cleanup ;;
  s ← get;
  clearTimeout (matchTimeout (app s)) ;;
  id ← setTimeout Rejoin_skip 500;
  modify_app (set_matchTimeout (Some id)).

Definition handleConnectionError : M unit :=
  cleanup ;;
  _ ← setTimeout Rejoin_error 2000;
  mret tt.

Definition handleCallEnded : M unit :=
  modify_app (set_isConnected false) ;;
  cleanup ;;
  _ ← setTimeout Rejoin_ended 1000;
  mret tt.

(** The synchronous start of [startCall] and of [answerCall]: the peer
    connection is created. The offer and answer exchange that follows is in
    [Module Relay]. *)
Definition startCall (roomId : string) : M unit := modify_app (set_peerConnection (Some Caller)).
Definition answerCall (roomId : string) : M unit := modify_app (set_peerConnection (Some Callee)).

(** The object [batch] of [createMatch], in the order of its assignments;
    [now] stands for [ServerValue.TIMESTAMP]. *)
Definition createMatch_batch (self roomId otherUid : string) (now : Z) : list Write :=
  [ W_match self (Some roomId);
    W_match otherUid (Some roomId);
    W_room roomId (Some (mkRoom self now [self; otherUid]));
    W_queue self None;
    W_queue otherUid None ].

(** [createMatch] up to its [await]: the batch is on its way. *)
Definition createMatch (roomId otherUid : string) : M unit := spawn (K_update roomId otherUid).

(** [createMatch] from [await this.db.ref().update(batch)] on: [ok] says
    whether the update was applied or was rejected (the [catch]). *)
Definition createMatch_update (ok : bool) (roomId otherUid : string) : M unit :=
  if ok then
    s ← get;
    db_do (Op_update (createMatch_batch (uid (app s)) roomId otherUid (clock s))) ;;
    modify_app (set_currentRoom (Some roomId)) ;;
    startCall roomId
  else joinQueue.

(** [attemptMatch] up to its [await]. *)
Definition attemptMatch (rnd : string) (otherUid : string) : M unit :=
  s ← get;
  spawn (K_reserve (generateRoomId rnd (clock s)) otherUid).

(** [attemptMatch] from [await otherRef.transaction(..)] on; [ok = false] is
    a transaction that threw. *)
Definition attemptMatch_transaction (ok : bool) (roomId otherUid : string) : M unit :=
  if ok then
    s ← get;
    db_do (Op_reserve (uid (app s)) otherUid) ;;
    if committed (uid (app s)) otherUid (db s)
    then createMatch roomId otherUid
    else joinQueue
  else joinQueue.

(** [joinQueue] from [await myQueueRef.set(..)] on; a rejected call ends in
    the [catch], which only shows a status. *)
Definition joinQueue_set (ok : bool) : M unit :=
  if ok then
    s ← get;
    db_do (Op_queue_set (uid (app s)) (clock s)) ;;
    spawn K_queue_once
  else mret tt.

(** [joinQueue] from [await this.queueRef.once('value')] on. *)
Definition joinQueue_once (ok : bool) (rnd : string) : M unit :=
  if ok then
    s ← get;
    match findPartner (queue_keys (queue (db s))) (uid (app s)) (blockedUsers (app s)) with
    | Some otherUid => attemptMatch rnd otherUid
    | None => modify_app (set_matchListener true)
    end
  else mret tt.

(** [handleMatchFound(snapshot)] with [roomId = snapshot.val()]. *)
Definition handleMatchFound (roomId : option string) : M unit :=
  s ← get;
  match roomId with
  | Some r =>
      if truthy roomId && bool_decide (roomId ≠ currentRoom (app s))
      then modify_app (set_currentRoom roomId) ;; answerCall r
      else mret tt
  | None => mret tt
  end.

Definition handleOnline : M unit :=
  s ← get;
  if negb (isConnected (app s)) && negb (truthy (currentRoom (app s)))
  then joinQueue
  else mret tt.

(** [JSON.parse(localStorage.getItem('vibe_blocked_users'))], or [[]]. *)
Definition getBlockedUsers (b : Browser) : list string := default [] (stored_blocked b).

Definition addToBlockedUsers (u : string) : M unit :=
  s ← get;
  if bool_decide (u ∈ blockedUsers (app s)) then mret tt
  else
    let l := blockedUsers (app s) ++ [u] in
    modify_app (set_blockedUsers l) ;;
    put_browser (mkBrowser (Some l) (timers (browser s)) (next_timer (browser s))
                   (fired (browser s))).

(** [getCurrentRoomParticipants] up to its [await]. *)
Definition getCurrentRoomParticipants : M unit :=
  s ← get;
  match currentRoom (app s) with
  | Some r => if truthy (currentRoom (app s)) then spawn (K_participants r) else mret tt
  | None => mret tt
  end.

(** [handleReport] up to its first [await]. *)
Definition handleReport : M unit :=
  s ← get;
  if truthy (currentRoom (app s)) then getCurrentRoomParticipants else mret tt.

(** What [getCurrentRoomParticipants] returns: [snapshot.val() || []], and
    [[]] from its [catch]. *)
Definition read_participants (ok : bool) (roomId : string) (d : Store) : list string :=
  if ok then default [] (participants <$> rooms d !! roomId) else [].

(** [participants.find(uid => uid !== this.uid)] *)
Definition find_target (self : string) (ps : list string) : option string :=
  head (filter (λ u, u ≠ self) ps).

(** [handleReport] from the participants on, up to the transaction. *)
Definition handleReport_participants (ok : bool) (roomId : string) : M unit :=
  s ← get;
  let targetUid := find_target (uid (app s)) (read_participants ok roomId (db s)) in
  match targetUid with
  | Some t => if truthy targetUid then spawn (K_report t) else mret tt
  | None => mret tt
  end.

(** [handleReport] from [await reportRef.transaction(..)] on; a transaction
    that threw ends in the [catch]. *)
Definition handleReport_transaction (ok : bool) (targetUid : string) : M unit :=
  if ok then
    db_do (Op_report targetUid) ;;
    addToBlockedUsers targetUid ;;
    handleNext
  else mret tt.

(** ** Clients around one database *)

#[local] Instance Task_eq_dec : EqDecision Task.
Proof. solve_decision. Defined.

Record Client := mkClient {
  c_app : VibeApp;
  c_browser : Browser;
  c_pending : list Task
}.

Record World := mkWorld {
  w_db : Store;
  w_clients : gmap string Client;
  w_clock : Z;
  w_trace : list StoreOp
}.

Definition empty_world : World := mkWorld empty_store ∅ 0 [].

(** What happens, one thing at a time: a page opens, an awaited database
    call of a client completes ([ok]) or is rejected, a listener or a button
    fires, a timer comes due, time passes. [rnd] is what [Math.random]
    yields should the resumed code draw a room id. *)
Inductive Event :=
| E_open (c : string)
| E_resume (c : string) (k : Task) (ok : bool) (rnd : string)
| E_match_value (c : string)
| E_next (c : string)
| E_report (c : string)
| E_online (c : string)
| E_connection_failed (c : string)
| E_connection_closed (c : string)
| E_timer (c : string) (id : nat)
| E_tick (dt : Z).

(** [new VibeApp()] for the device id [c]. *)
Definition new_app (c : string) (b : Browser) : VibeApp :=
  mkApp c None None false None (getBlockedUsers b) false.

Definition new_browser : Browser := mkBrowser None [] 0%nat [].

(** The rest of the method that waited for task [k]. *)
Definition resume (k : Task) (ok : bool) (rnd : string) : M unit :=
  match k with
  | K_queue_set => joinQueue_set ok
  | K_queue_once => joinQueue_once ok rnd
  | K_reserve roomId otherUid => attemptMatch_transaction ok roomId otherUid
  | K_update roomId otherUid => createMatch_update ok roomId otherUid
  | K_participants roomId => handleReport_participants ok roomId
  | K_report targetUid => handleReport_transaction ok targetUid
  end.

Fixpoint remove_first (k : Task) (l : list Task) : option (list Task) :=
  match l with
  | [] => None
  | k' :: l' => if decide (k = k') then Some l' else (k' ::.) <$> remove_first k l'
  end.

Definition take_task (k : Task) (s : Sys) : option Sys :=
  l ← remove_first k (pending s);
  Some (mkSys (db s) (app s) (browser s) l (clock s) (trace s)).

(** A timer that is due runs its callback, which is [joinQueue] for all
    three kinds. *)
Definition take_timer (id : nat) (s : Sys) : option Sys :=
  let b := browser s in
  t ← head (filter (λ t, t_id t = id) (timers b));
  if bool_decide (t_due t ≤ clock s)
  then Some (mkSys (db s) (app s)
               (mkBrowser (stored_blocked b) (filter (λ t, t_id t ≠ id) (timers b))
                  (next_timer b) (fired b ++ [t]))
               (pending s) (clock s) (trace s))
  else None.

Definition load (c : string) (w : World) : option Sys :=
  cl ← w_clients w !! c;
  Some (mkSys (w_db w) (c_app cl) (c_browser cl) (c_pending cl) (w_clock w) (w_trace w)).

Definition unload (c : string) (w : World) (s : Sys) : World :=
  mkWorld (db s) (<[c := mkClient (app s) (browser s) (pending s)]> (w_clients w))
          (w_clock w) (trace s).

(** The client an event belongs to. *)
Definition client_of (e : Event) : option string :=
  match e with
  | E_open c | E_resume c _ _ _ | E_match_value c | E_next c | E_report c | E_online c
  | E_connection_failed c | E_connection_closed c | E_timer c _ => Some c
  | E_tick _ => None
  end.

(** What the code of the client does on an event; [None] when the event
    cannot happen in the state: no such task or due timer, no listener, no
    peer connection whose state could change. The ['value'] listener of
    [matchRef] gets the row [matches/<uid>] as it is in the database. *)
Definition react (e : Event) (s : Sys) : option Sys :=
  match e with
  | E_resume _ k ok rnd => s' ← take_task k s; Some (exec (resume k ok rnd) s')
  | E_match_value _ =>
      if matchListener (app s)
      then Some (exec (handleMatchFound (matches (db s) !! uid (app s))) s)
      else None
  | E_next _ => Some (exec handleNext s)
  | E_report _ => Some (exec handleReport s)
  | E_online _ => Some (exec handleOnline s)
  | E_connection_failed _ =>
      if peerConnection (app s) is Some _ then Some (exec handleConnectionError s) else None
  | E_connection_closed _ =>
      if peerConnection (app s) is Some _ then Some (exec handleCallEnded s) else None
  | E_timer _ id => s' ← take_timer id s; Some (exec joinQueue s')
  | E_open _ | E_tick _ => None
  end.

Definition step (e : Event) (w : World) : option World :=
  match e with
  | E_open c =>
      match w_clients w !! c with
      | Some _ => None
      | None =>
          Some (unload c w
                  (exec joinQueue
                     (mkSys (w_db w) (new_app c new_browser) new_browser [] (w_clock w)
                        (w_trace w))))
      end
  | E_tick dt =>
      if bool_decide (0 ≤ dt)
      then Some (mkWorld (w_db w) (w_clients w) (w_clock w + dt) (w_trace w))
      else None
  | _ =>
      c ← client_of e; s ← load c w; s' ← react e s; Some (unload c w s')
  end.

Fixpoint run (es : list Event) (w : World) : option World :=
  match es with
  | [] => Some w
  | e :: es' => w' ← step e w; run es' w'
  end.

(** ** Counting reports *)

(** [e] is the completion of the transaction of a report on [t]. *)
Definition is_report_of (t : string) (e : Event) : bool :=
  match e with
  | E_resume _ (K_report t') true _ => bool_decide (t' = t)
  | _ => false
  end.

(** How many report transactions on [t] complete in the course of [es]. *)
Fixpoint completed_reports (t : string) (es : list Event) : nat :=
  match es with
  | [] => 0
  | e :: es' => ((if is_report_of t e then 1 else 0) + completed_reports t es')%nat
  end.

(** The counter after [n] increments. *)
Definition bump (n : nat) (current : option Z) : option Z :=
  match n with
  | O => current
  | S _ => Some (or_zero current + Z.of_nat n)
  end.

(** ** Queue entries, match rows and sessions *)

(** Nobody is in the queue and in a match row at once. *)
Definition queue_match_exclusive (d : Store) : Prop :=
  ∀ c, is_Some (queue_get c (queue d)) → matches d !! c = None.

(** [c] is a participant of room [r], and [r] is live: some match row points
    to it. *)
Definition in_live_session (d : Store) (c r : string) : Prop :=
  (∃ room, rooms d !! r = Some room ∧ c ∈ participants room)
  ∧ (∃ c', matches d !! c' = Some r).

Definition one_session_each (d : Store) : Prop :=
  ∀ c r1 r2, in_live_session d c r1 → in_live_session d c r2 → r1 = r2.

(** ** After a lost reservation *)

(** What [joinQueue] goes for after its fresh snapshot. *)
Definition next_attempt (rnd : string) (s : Sys) : list Task :=
  match findPartner (queue_keys (queue (db s))) (uid (app s)) (blockedUsers (app s)) with
  | Some otherUid => [K_reserve (generateRoomId rnd (clock s)) otherUid]
  | None => []
  end.

(** ** Timers and the skip button *)

Fixpoint insert_by_due (x : Timer) (l : list Timer) : list Timer :=
  match l with
  | [] => [x]
  | y :: l' => if bool_decide (t_due x < t_due y) then x :: y :: l' else y :: insert_by_due x l'
  end.

(** Pending timers in the order in which they come due; timers due at the
    same time stay in the order of their creation. *)
Definition by_due (l : list Timer) : list Timer := foldr insert_by_due [] l.

(** Time passes until [t] with every timer punctual: the callbacks of the
    timers due by then run, earliest first. Each is [joinQueue]. *)
Definition elapse (t : Z) : M unit :=
  λ s,
    let b := browser s in
    let due := by_due (filter (λ x, t_due x ≤ t) (timers b)) in
    (tt, mkSys (db s) (app s)
           (mkBrowser (stored_blocked b) (filter (λ x, ¬ t_due x ≤ t) (timers b))
              (next_timer b) (fired b ++ due))
           (pending s ++ ((λ _, K_queue_set) <$> due))
           (Z.max (clock s) t) (trace s)).

(** The skip button pressed at each of the times [ts]. *)
Fixpoint skips (ts : list Z) : M unit :=
  match ts with
  | [] => mret tt
  | t :: ts' => elapse t ;; handleNext ;; skips ts'
  end.

(** Consecutive times less than the debounce interval apart. *)
Fixpoint rapid (t : Z) (ts : list Z) : Prop :=
  match ts with
  | [] => True
  | t' :: ts' => t ≤ t' < t + 500 ∧ rapid t' ts'
  end.

#[local] Instance TimerKind_eq_dec : EqDecision TimerKind.
Proof. solve_decision. Defined.

(** The timers that [handleNext] set. *)
Definition skip_timers (l : list Timer) : list Timer :=
  filter (λ x, t_kind x = Rejoin_skip) l.

(** No timer of [handleNext] other than the one [matchTimeout] names is
    pending, and that one is not due by [t]. *)
Definition quiet (t : Z) (s : Sys) : Prop :=
  clock s ≤ t
  ∧ Forall (λ x, t_kind x = Rejoin_skip → matchTimeout (app s) = Some (t_id x) ∧ t < t_due x)
           (timers (browser s)).

(** At time [t] exactly one timer of [handleNext] is pending, due at
    [t + 500]; [F] are the timers of [handleNext] that have fired so far. *)
Definition armed (t : Z) (F : list Timer) (s : Sys) : Prop :=
  clock s = t
  ∧ ∃ id, matchTimeout (app s) = Some id
          ∧ skip_timers (timers (browser s)) = [mkTimer id (t + 500) Rejoin_skip]
          ∧ skip_timers (fired (browser s)) = F.

(** ** The signalling relay *)

Module Relay.

(** [{type, sdp}] as written to and read from [rooms/<roomId>/offer] and
    [.../answer]. *)
Record Sdp := mkSdp { sdp_type : string; sdp : string }.

Inductive SignalingState := Stable | HaveLocalOffer | HaveRemoteOffer.

(** What the code reads of the [RTCPeerConnection]. The connection belongs
    to the browser; its offer and answer state machine is the one of the
    WebRTC API: a remote offer is pending until the local answer is set, a
    remote answer completes the exchange, and only a completed exchange makes
    the remote description current. *)
Record PeerConnection := mkPc {
  signalingState : SignalingState;
  pendingLocalDescription : option Sdp;
  pendingRemoteDescription : option Sdp;
  currentLocalDescription : option Sdp;
  currentRemoteDescription : option Sdp
}.

(** [new RTCPeerConnection(..)] *)
Definition new_pc : PeerConnection := mkPc Stable None None None None.

(** The calls that the two listeners make on the connection. Each returns a
    promise; the description it sets is in place when the promise resolves. *)
Inductive PcCall :=
| SetRemoteDescription (d : Sdp)
| CreateAnswer
| SetLocalDescription (d : Sdp).

(** The connection after a call has completed; [None] when the call is
    rejected (wrong state for the description). *)
Definition settle (c : PcCall) (p : PeerConnection) : option PeerConnection :=
  match c with
  | SetRemoteDescription d =>
      if String.eqb (sdp_type d) "offer" then
        match signalingState p with
        | Stable | HaveRemoteOffer =>
            Some (mkPc HaveRemoteOffer (pendingLocalDescription p) (Some d)
                       (currentLocalDescription p) (currentRemoteDescription p))
        | HaveLocalOffer => None
        end
      else
        match signalingState p with
        | HaveLocalOffer =>
            Some (mkPc Stable None None (pendingLocalDescription p) (Some d))
        | _ => None
        end
  | CreateAnswer =>
      match signalingState p with
      | HaveRemoteOffer => Some p
      | _ => None
      end
  | SetLocalDescription d =>
      if String.eqb (sdp_type d) "offer" then
        match signalingState p with
        | Stable | HaveLocalOffer =>
            Some (mkPc HaveLocalOffer (Some d) (pendingRemoteDescription p)
                       (currentLocalDescription p) (currentRemoteDescription p))
        | HaveRemoteOffer => None
        end
      else
        match signalingState p with
        | HaveRemoteOffer =>
            Some (mkPc Stable None None (Some d) (pendingRemoteDescription p))
        | _ => None
        end
  end.

(** An [await] of a listener in flight. The calls on one connection complete
    in the order in which they were made. *)
Inductive Await :=
| A_answer_applied (answer : Sdp)
| A_offer_applied (offer : Sdp)
| A_answer_created
| A_answer_set (answer : Sdp).

(** One side of a session: the connection, the descriptions handed to
    [setRemoteDescription] so far, the awaits in flight, and the answers
    written to the room. *)
Record Side := mkSide {
  pc : PeerConnection;
  handed : list Sdp;
  awaits : list Await;
  sent : list Sdp
}.

(** [startCall] up to its listeners: the offer is created and set. *)
Definition caller_side (offer : Sdp) : Side :=
  mkSide (mkPc HaveLocalOffer (Some offer) None None None) [] [] [].

(** [answerCall] up to its listeners. *)
Definition callee_side : Side := mkSide new_pc [] [] [].

(** The ['value'] listener of [startCall] on [answer], up to its [await]:
    [if (answer && !this.peerConnection.currentRemoteDescription)]. *)
Definition on_answer (v : option Sdp) (r : Side) : Side :=
  match v, currentRemoteDescription (pc r) with
  | Some answer, None =>
      mkSide (pc r) (handed r ++ [answer]) (awaits r ++ [A_answer_applied answer]) (sent r)
  | _, _ => r
  end.

(** The ['value'] listener of [answerCall] on [offer], up to its first
    [await]. *)
Definition on_offer (v : option Sdp) (r : Side) : Side :=
  match v, currentRemoteDescription (pc r) with
  | Some offer, None =>
      mkSide (pc r) (handed r ++ [offer]) (awaits r ++ [A_offer_applied offer]) (sent r)
  | _, _ => r
  end.

(** The oldest call in flight completes and the listener that awaited it
    goes on to its next [await]; a rejected call ends that run of the
    listener. [created] is what [createAnswer] yields. *)
Definition resolve (created : Sdp) (r : Side) : Side :=
  match awaits r with
  | [] => r
  | A_answer_applied answer :: rest =>
      match settle (SetRemoteDescription answer) (pc r) with
      | Some p => mkSide p (handed r) rest (sent r)
      | None => mkSide (pc r) (handed r) rest (sent r)
      end
  | A_offer_applied offer :: rest =>
      match settle (SetRemoteDescription offer) (pc r) with
      | Some p => mkSide p (handed r) (rest ++ [A_answer_created]) (sent r)
      | None => mkSide (pc r) (handed r) rest (sent r)
      end
  | A_answer_created :: rest =>
      match settle CreateAnswer (pc r) with
      | Some p => mkSide p (handed r) (rest ++ [A_answer_set created]) (sent r)
      | None => mkSide (pc r) (handed r) rest (sent r)
      end
  | A_answer_set answer :: rest =>
      match settle (SetLocalDescription answer) (pc r) with
      | Some p => mkSide p (handed r) rest (sent r ++ [answer])
      | None => mkSide (pc r) (handed r) rest (sent r)
      end
  end.

Inductive Signal :=
| Deliver (v : option Sdp)
| Resolve (created : Sdp).

Definition caller_step (r : Side) (e : Signal) : Side :=
  match e with
  | Deliver v => on_answer v r
  | Resolve created => resolve created r
  end.

Definition callee_step (r : Side) (e : Signal) : Side :=
  match e with
  | Deliver v => on_offer v r
  | Resolve created => resolve created r
  end.

Definition an_offer : Sdp := mkSdp "offer" "v=0 o=- 46117317 2 IN IP4 127.0.0.1".
Definition an_answer : Sdp := mkSdp "answer" "v=0 o=- 86412995 2 IN IP4 127.0.0.1".

End Relay.

(** ** What every page keeps *)

(** The block list has no duplicates and is what [localStorage] holds; the
    ids of the pending timers are distinct and below the next id, and so is
    the id in [matchTimeout]; a pending timer of [handleNext] is the one
    [matchTimeout] names. *)
Definition page_ok (a : VibeApp) (b : Browser) : Prop :=
  NoDup (blockedUsers a)
  ∧ getBlockedUsers b = blockedUsers a
  ∧ Forall (λ x, (t_id x < next_timer b)%nat) (timers b)
  ∧ NoDup (t_id <$> timers b)
  ∧ Forall (λ x, t_kind x = Rejoin_skip → matchTimeout a = Some (t_id x)) (timers b)
  ∧ (∀ i, matchTimeout a = Some i → (i < next_timer b)%nat).

Definition world_ok (w : World) : Prop :=
  ∀ c cl, w_clients w !! c = Some cl → uid (c_app cl) = c ∧ page_ok (c_app cl) (c_browser cl).

(** ** Rooms *)

(** [e] is the completion of the batch of a [createMatch] for the room id [r]. *)
Definition creates (r : string) (e : Event) : bool :=
  match e with
  | E_resume _ (K_update r' _) true _ => bool_decide (r' = r)
  | _ => false
  end.

(** ** The device id *)

(** [generateUID]: the item [vibe_uid] of [localStorage] if it is there and
    not empty, else a new id, which is stored. The result is the id and the
    item afterwards. *)
Definition generateUID (stored : option string) (rnd : string) (now : Z)
  : string * option string :=
  if truthy stored then (default "" stored, stored)
  else let u := "user_" +:+ rnd +:+ pretty now in (u, Some u).

(** ** Three clients: the runs used below *)

Definition ann : string := "user_a1b2c3d4e1699999000000".
Definition bob : string := "user_b5f6g7h8i1699999100000".
Definition cat : string := "user_c9j0k1l2m1699999200000".

(** [Date.now()] while the runs below take place. *)
Definition t0 : Z := 1700000000000.

Definition room_b : string := generateRoomId "q7w8e9r0t" t0.
Definition room_c : string := generateRoomId "z1x2c3v4b" t0.
Definition room_a1 : string := generateRoomId "m5n6b7v8c" t0.
Definition room_a2 : string := generateRoomId "p0o9i8u7y" t0.

(** [c] opens the page and joins the queue; [rnd] is drawn if it finds
    somebody to go for. *)
Definition enters (c rnd : string) : list Event :=
  [E_open c; E_resume c K_queue_set true ""; E_resume c K_queue_once true rnd].

(** Ann waits in the queue. Cat arrives, reads the queue and goes for Ann,
    but before her transaction reaches the database Bob arrives, reserves Ann
    and creates the session. Then Cat's transaction arrives. *)
Definition late_reservation : list Event :=
  [E_tick t0] ++ enters ann "" ++ enters cat "z1x2c3v4b" ++ enters bob "q7w8e9r0t" ++
  [ E_resume bob (K_reserve room_b ann) true "";
    E_resume bob (K_update room_b ann) true "";
    E_resume cat (K_reserve room_c ann) true "" ].

(** The calls of [c] that are in flight. *)
Definition in_flight (c : string) (w : World) : list Task :=
  default [] (c_pending <$> w_clients w !! c).

(** The beginning of [late_reservation]: Ann waits, Cat and Bob have both
    read the queue, picked Ann and issued their transactions on
    [queue/<ann>/reservedBy]; neither has reached the database yet. *)
Definition both_in_flight : list Event :=
  [E_tick t0] ++ enters ann "" ++ enters cat "z1x2c3v4b" ++ enters bob "q7w8e9r0t".

(** Bob waits in the queue and Cat has reserved him; her batch is still on
    its way when Ann arrives and goes for Bob too. *)
Definition reserved_by_another : list Event :=
  [E_tick t0] ++ enters bob "" ++ enters cat "z1x2c3v4b" ++
  [ E_resume cat (K_reserve room_c bob) true "" ] ++ enters ann "m5n6b7v8c".


Definition reserved_sys : Sys :=
  mkSys (exec_ops [Op_queue_set "user_a" 5; Op_queue_set "user_b" 7;
                   Op_reserve "user_a" "user_b"] empty_store)
        (new_app "user_a" new_browser) new_browser [] 9
        [Op_queue_set "user_a" 5; Op_queue_set "user_b" 7; Op_reserve "user_a" "user_b"].

Definition waiting_on_reserved : Sys :=
  mkSys (exec_ops [Op_queue_set bob t0; Op_queue_set cat t0; Op_reserve cat bob;
                   Op_queue_set ann t0] empty_store)
        (new_app ann new_browser) new_browser [] t0
        [Op_queue_set bob t0; Op_queue_set cat t0; Op_reserve cat bob; Op_queue_set ann t0].

(** What Ann is about to do and whether it can commit, after a run. *)
Definition ann_next (w : World) : option (list Task) * bool :=
  (c_pending <$> w_clients w !! ann, committed ann bob (w_db w)).

Definition retry : list Event :=
  [ E_resume ann (K_reserve room_a1 bob) true "";
    E_resume ann K_queue_set true "";
    E_resume ann K_queue_once true "p0o9i8u7y" ].

(** Ann and Bob are in a session; Ann reports Bob while Bob skips, rejoins
    and is matched with Cat, who reports Bob too; the two transactions reach
    the database one after the other. *)
Definition room_c2 : string := generateRoomId "z1x2c3v4b" (t0 + 500).

Definition two_reports : list Event :=
  [E_tick t0] ++ enters ann "" ++ enters bob "q7w8e9r0t" ++
  [ E_resume bob (K_reserve room_b ann) true "";
    E_resume bob (K_update room_b ann) true "";
    E_match_value ann;
    E_report ann;
    E_next bob;
    E_tick 500;
    E_timer bob 0;
    E_resume bob K_queue_set true "";
    E_resume bob K_queue_once true "" ] ++
  enters cat "z1x2c3v4b" ++
  [ E_resume cat (K_reserve room_c2 bob) true "";
    E_resume cat (K_update room_c2 bob) true "";
    E_report cat;
    E_resume ann (K_participants room_b) true "";
    E_resume cat (K_participants room_c2) true "";
    E_resume cat (K_report bob) true "";
    E_resume ann (K_report bob) true "" ].

(** Bob has matched with Ann and then pressed skip. *)
Definition bob_skipped : list Event :=
  [E_tick t0] ++ enters ann "" ++ enters bob "q7w8e9r0t" ++
  [ E_resume bob (K_reserve room_b ann) true "";
    E_resume bob (K_update room_b ann) true "";
    E_next bob ].

(** A call is on: the page of Ann, caller in [room_b]. *)
Definition calling : Sys :=
  mkSys (exec_ops [Op_update (createMatch_batch ann room_b bob t0)] empty_store)
        (mkApp ann (Some room_b) (Some Caller) true None [] false)
        new_browser [] t0 [Op_update (createMatch_batch ann room_b bob t0)].

(** Bob waits in the queue; Ann has read the queue and her reservation of
    Bob is on its way. *)
Definition reserving : Sys :=
  mkSys (exec_ops [Op_queue_set bob t0; Op_queue_set ann t0] empty_store)
        (new_app ann new_browser) new_browser [K_reserve room_a1 bob] t0
        [Op_queue_set bob t0; Op_queue_set ann t0].

(** * Properties *)

(** ** The queue as a table *)

Lemma compare_refl (k : string) : String.compare k k = Eq.
Proof.
  pose proof (String.compare_antisym k k) as H.
  destruct (String.compare k k); simpl in H; congruence.
Qed.

Lemma compare_ne (k k' : string) : String.compare k k' ≠ Eq → String.eqb k k' = false.
Proof.
  intros H. destruct (String.eqb_spec k k') as [->|]; [|done].
  by rewrite compare_refl in H.
Qed.

Lemma queue_get_put_eq k e q : queue_get k (queue_put k e q) = Some e.
Proof.
  induction q as [|[k' e'] q IH]; simpl.
  - by rewrite String.eqb_refl.
  - destruct (String.compare k k') eqn:E; simpl.
    + by rewrite String.eqb_refl.
    + by rewrite String.eqb_refl.
    + rewrite compare_ne; [done | by rewrite E].
Qed.

Lemma queue_get_put_ne k k' e q : k ≠ k' → queue_get k' (queue_put k e q) = queue_get k' q.
Proof.
  intros Hne. assert (String.eqb k' k = false) as Hkk by by apply String.eqb_neq.
  induction q as [|[k0 e0] q IH]; simpl.
  - by rewrite Hkk.
  - destruct (String.compare k k0) eqn:E; simpl.
    + apply String.compare_eq_iff in E as <-. by rewrite Hkk.
    + by rewrite Hkk.
    + by rewrite IH.
Qed.

Lemma queue_get_del_eq k q : queue_get k (queue_del k q) = None.
Proof.
  induction q as [|[k' e'] q IH]; simpl; [done|].
  destruct (String.eqb k k') eqn:E; simpl; [done | by rewrite E].
Qed.

Lemma queue_get_del_ne k k' q : k ≠ k' → queue_get k' (queue_del k q) = queue_get k' q.
Proof.
  intros Hne. assert (String.eqb k' k = false) as Hkk by by apply String.eqb_neq.
  induction q as [|[k0 e0] q IH]; simpl; [done|].
  destruct (String.eqb_spec k k0) as [<-|]; simpl.
  - by rewrite IH, Hkk.
  - by rewrite IH.
Qed.

(** ** Reservation *)

Lemma reserve_taken self other s holder :
  get_reservedBy other s = Some holder →
  committed self other s = false ∧ exec_op (Op_reserve self other) s = s.
Proof. intros H. unfold committed, exec_op. by rewrite H. Qed.

Lemma reserve_free self other s :
  get_reservedBy other s = None →
  committed self other s = true
  ∧ get_reservedBy other (exec_op (Op_reserve self other) s) = Some self.
Proof.
  intros H. unfold committed, exec_op. rewrite H. simpl. split; [done|].
  unfold get_reservedBy, set_reservedBy. simpl. by rewrite queue_get_put_eq.
Qed.

(** ** Choosing a partner *)

(** C4. [findPartner] yields the first key of the snapshot that is neither
    the client's own id nor on its block list: everything before it is
    excluded, and it is itself not excluded. It yields nothing exactly when
    every key is excluded. *)
Theorem findPartner_first (keys : list string) (self : string) (blocked : list string) :
  match findPartner keys self blocked with
  | Some u =>
      u ≠ self ∧ (u ∉ blocked)
      ∧ (∃ before after,
          keys = before ++ u :: after ∧ Forall (λ k, k = self ∨ k ∈ blocked) before)
  | None => Forall (λ k, k = self ∨ k ∈ blocked) keys
  end.
Proof.
  unfold findPartner, otherUsers.
  induction keys as [|k keys IH]; simpl; [done|].
  destruct (decide (k ≠ self ∧ k ∉ blocked)) as [[Hs Hb]|Hex].
  - rewrite filter_cons_True by done. simpl.
    split_and!; [done..|]. by exists [], keys.
  - rewrite filter_cons_False by done.
    assert (k = self ∨ k ∈ blocked) as Hk.
    { destruct (decide (k = self)); [by left|].
      destruct (decide (k ∈ blocked)); [by right|]. by destruct Hex. }
    destruct (head (filter _ keys)) as [u|].
    + destruct IH as (Hs & Hb & before & after & -> & Hall).
      split_and!; [done..|]. exists (k :: before), after. split; [done|].
      by constructor.
    + by constructor.
Qed.

(** ** Creating the session *)

Ltac unfold_methods :=
  unfold exec, resume, createMatch_update, attemptMatch_transaction, joinQueue_set,
    joinQueue_once, handleReport_transaction, handleReport_participants, handleReport,
    getCurrentRoomParticipants, handleMatchFound, handleOnline, handleConnectionError,
    handleCallEnded, handleNext, attemptMatch, createMatch, joinQueue, startCall,
    answerCall, addToBlockedUsers, cleanup, setTimeout, clearTimeout, modify_app, db_do,
    spawn, put_app, put_db, put_browser, get, mbind, mret, M_bind, M_ret,
    exec_op, committed, transaction, reserve_update, report_update in *.

(** Case analysis on the first test of the code whose outcome is open. *)
Ltac case_cond :=
  match goal with
  | |- context [match ?c with _ => _ end] =>
      lazymatch type of c with
      | bool => destruct c eqn:?
      | option _ => destruct c eqn:?
      end
  end.

Ltac bool_hyps :=
  repeat match goal with
    | H : bool_decide _ = true |- _ => apply bool_decide_eq_true in H
    | H : bool_decide _ = false |- _ => apply bool_decide_eq_false in H
    | H : negb _ = true |- _ => apply negb_true_iff in H
    | H : negb _ = false |- _ => apply negb_false_iff in H
    end.

Ltac run_methods := unfold_methods; simpl; repeat (case_cond; simpl); bool_hyps.


(** C5. When the batch is rejected, the database is as it was (the update is
    all or nothing), so the match rows and the room that were absent are
    still absent; the client has no room and no peer connection more than
    before, and what it does is [joinQueue]. *)
Theorem createMatch_failed (roomId otherUid : string) (s : Sys) :
  matches (db s) !! uid (app s) = None →
  matches (db s) !! otherUid = None →
  rooms (db s) !! roomId = None →
  let s' := exec (createMatch_update false roomId otherUid) s in
  db s' = db s
  ∧ trace s' = trace s
  ∧ matches (db s') !! uid (app s) = None
  ∧ matches (db s') !! otherUid = None
  ∧ rooms (db s') !! roomId = None
  ∧ app s' = app s
  ∧ s' = exec joinQueue s
  ∧ pending s' = pending s ++ [K_queue_set].
Proof. intros H1 H2 H3. unfold_methods. simpl. by split_and!. Qed.

Lemma createMatch_failed_witness :
  let s' := exec (createMatch_update false "room_x9" "user_b") reserved_sys in
  db s' = db reserved_sys
  ∧ trace s' = trace reserved_sys
  ∧ matches (db s') !! uid (app reserved_sys) = None
  ∧ matches (db s') !! "user_b" = None
  ∧ rooms (db s') !! "room_x9" = None
  ∧ app s' = app reserved_sys
  ∧ s' = exec joinQueue reserved_sys
  ∧ pending s' = pending reserved_sys ++ [K_queue_set].
Proof.
  apply (createMatch_failed "room_x9" "user_b" reserved_sys); reflexivity.
Defined.

(** ** Reports *)

Lemma or_zero_Some n : or_zero (Some n) = n.
Proof. simpl. destruct (Z.eqb_spec n 0); congruence. Qed.

Lemma step_inv e w w' :
  step e w = Some w' →
  (∃ c, e = E_open c ∧ w_clients w !! c = None
        ∧ w' = unload c w (exec joinQueue (mkSys (w_db w) (new_app c new_browser)
                                             new_browser [] (w_clock w) (w_trace w))))
  ∨ (∃ dt, e = E_tick dt ∧ 0 ≤ dt
           ∧ w' = mkWorld (w_db w) (w_clients w) (w_clock w + dt) (w_trace w))
  ∨ (∃ c s s', client_of e = Some c ∧ load c w = Some s ∧ react e s = Some s'
               ∧ w' = unload c w s').
Proof.
  intros H.
  destruct e; unfold step in H;
    try (right; right;
         apply bind_Some in H as (c0 & Hc & H);
         apply bind_Some in H as (s & Hs & H);
         apply bind_Some in H as (s' & Hr & H);
         injection H as <-; by exists c0, s, s').
  - left. destruct (w_clients w !! c) eqn:Hc; [done|]. injection H as <-. by exists c.
  - right; left. case_bool_decide; [|done]. injection H as <-. by exists dt.
Qed.

Lemma react_reports e s s' t :
  react e s = Some s' →
  reports (db s') !! t =
    if is_report_of t e then Some (or_zero (reports (db s) !! t) + 1)
    else reports (db s) !! t.
Proof.
  intros H. destruct e; simpl in H; try done.
  - destruct (take_task k s) as [s0|] eqn:Htake; simpl in H; [|done].
    injection H as <-.
    assert (db s0 = db s) as Hdb.
    { unfold take_task in Htake. destruct (remove_first k (pending s)); [|done].
      simpl in Htake. by injection Htake as <-. }
    rewrite <- Hdb. clear Htake Hdb.
    destruct k, ok; run_methods; subst; try done.
    all: by rewrite ?lookup_insert_eq, ?lookup_insert_ne by done.
  - destruct (matchListener (app s)); [|done]. injection H as <-. by run_methods.
  - injection H as <-. by run_methods.
  - injection H as <-. by run_methods.
  - injection H as <-. by run_methods.
  - destruct (peerConnection (app s)); [|done]. injection H as <-. by run_methods.
  - destruct (peerConnection (app s)); [|done]. injection H as <-. by run_methods.
  - destruct (take_timer id s) as [s0|] eqn:Htake; simpl in H; [|done].
    injection H as <-. unfold take_timer in Htake.
    destruct (head _); simpl in Htake; [|done].
    case_bool_decide; [|done]. by injection Htake as <-.
Qed.

Lemma step_reports e w w' t :
  step e w = Some w' →
  reports (w_db w') !! t =
    if is_report_of t e then Some (or_zero (reports (w_db w) !! t) + 1)
    else reports (w_db w) !! t.
Proof.
  intros H. apply step_inv in H as [(c & -> & _ & ->)|[(dt & -> & _ & ->)|H]]; [done..|].
  destruct H as (c & s & s' & _ & Hload & Hreact & ->).
  cbn [unload w_db]. rewrite (react_reports _ _ _ t Hreact).
  apply bind_Some in Hload as (cl & _ & Hs). by injection Hs as <-.
Qed.

Lemma run_reports es w w' t :
  run es w = Some w' →
  reports (w_db w') !! t = bump (completed_reports t es) (reports (w_db w) !! t).
Proof.
  revert w. induction es as [|e es IH]; intros w H; simpl in H.
  - by injection H as <-.
  - apply bind_Some in H as (w1 & Hstep & Hrun).
    rewrite (IH _ Hrun), (step_reports _ _ _ t Hstep). cbn [completed_reports].
    destruct (is_report_of t e); [|done].
    destruct (completed_reports t es) as [|n]; cbn [bump Nat.add]; [done|].
    rewrite or_zero_Some. f_equal. lia.
Qed.

(** C8. Along every run of the system, whatever else the clients do in
    between and in whatever order the database serialises the transactions,
    the report counter of a target grows by exactly the number of report
    transactions on that target that completed, an absent counter counting
    as 0; a completed transaction leaves the counter present. *)
Theorem reports_never_lost (es : list Event) (w w' : World) (t : string) :
  run es w = Some w' →
  or_zero (reports (w_db w') !! t) =
    or_zero (reports (w_db w) !! t) + Z.of_nat (completed_reports t es)
  ∧ (completed_reports t es ≠ 0%nat →
     reports (w_db w') !! t =
       Some (or_zero (reports (w_db w) !! t) + Z.of_nat (completed_reports t es))).
Proof.
  intros H. rewrite (run_reports _ _ _ t H).
  destruct (completed_reports t es) as [|n]; cbn [bump].
  - split; [lia | done].
  - rewrite or_zero_Some. split; [lia | done].
Qed.

Lemma run_app es1 es2 w : run (es1 ++ es2) w = run es1 w ≫= run es2.
Proof.
  revert w. induction es1 as [|e es1 IH]; intros w; simpl; [done|].
  destruct (step e w) as [w1|]; simpl; [apply IH | done].
Qed.

Lemma run_snoc es e w : run (es ++ [e]) w = run es w ≫= step e.
Proof.
  rewrite run_app. destruct (run es w) as [w1|]; simpl; [|done].
  by destruct (step e w1).
Qed.

#[local] Arguments step : simpl never.
#[local] Arguments run : simpl never.

(** ** Queue entries, match rows and sessions *)

Lemma both_in_flight_state :
  (λ w, (in_flight bob w, in_flight cat w, get_reservedBy ann (w_db w),
         committed bob ann (w_db w), committed cat ann (w_db w)))
    <$> run both_in_flight empty_world
  = Some ([K_reserve room_b ann], [K_reserve room_c ann], None, true, true).
Proof. vm_compute. reflexivity. Qed.

Lemma both_in_flight_first :
  (λ w, (in_flight bob w, get_reservedBy ann (w_db w), committed cat ann (w_db w)))
    <$> run (both_in_flight ++ [E_resume bob (K_reserve room_b ann) true ""]) empty_world
  = Some ([K_update room_b ann], Some bob, false).
Proof. vm_compute. reflexivity. Qed.

Lemma both_in_flight_batch :
  (λ w, (queue_get ann (queue (w_db w)), matches (w_db w) !! ann,
         committed cat ann (w_db w)))
    <$> run ((both_in_flight ++ [E_resume bob (K_reserve room_b ann) true ""])
               ++ [E_resume bob (K_update room_b ann) true ""]) empty_world
  = Some (None, Some room_b, true).
Proof. vm_compute. reflexivity. Qed.

Lemma both_in_flight_second :
  (λ w, (in_flight cat w, get_reservedBy ann (w_db w)))
    <$> run (((both_in_flight ++ [E_resume bob (K_reserve room_b ann) true ""])
                ++ [E_resume bob (K_update room_b ann) true ""])
               ++ [E_resume cat (K_reserve room_c ann) true ""]) empty_world
  = Some ([K_update room_c ann], Some cat).
Proof. vm_compute. reflexivity. Qed.

(** C1. Two concurrent reservations of one candidate both commit. After
    [both_in_flight] the transactions of Bob and of Cat on Ann's
    [reservedBy] are in flight at the same time. Bob's arrives first and
    commits; had Cat's arrived next it would have been lost. But Bob's
    [createMatch] batch arrives in between and removes Ann's queue entry, and
    with it the mark: Cat's transaction then finds [null], commits too, and
    Cat goes on to [createMatch] as Bob did. These are the last three events
    of [late_reservation]. *)
Theorem concurrent_reservations_both_commit :
  ∃ w0 w1 w2 w3,
    run both_in_flight empty_world = Some w0
    ∧ in_flight bob w0 = [K_reserve room_b ann]
    ∧ in_flight cat w0 = [K_reserve room_c ann]
    ∧ get_reservedBy ann (w_db w0) = None
    ∧ committed bob ann (w_db w0) = true
    ∧ step (E_resume bob (K_reserve room_b ann) true "") w0 = Some w1
    ∧ in_flight bob w1 = [K_update room_b ann]
    ∧ get_reservedBy ann (w_db w1) = Some bob
    ∧ committed cat ann (w_db w1) = false
    ∧ step (E_resume bob (K_update room_b ann) true "") w1 = Some w2
    ∧ queue_get ann (queue (w_db w2)) = None
    ∧ matches (w_db w2) !! ann = Some room_b
    ∧ committed cat ann (w_db w2) = true
    ∧ step (E_resume cat (K_reserve room_c ann) true "") w2 = Some w3
    ∧ in_flight cat w3 = [K_update room_c ann]
    ∧ get_reservedBy ann (w_db w3) = Some cat
    ∧ run late_reservation empty_world = Some w3.
Proof.
  pose proof both_in_flight_state as H0.
  pose proof both_in_flight_first as H1.
  pose proof both_in_flight_batch as H2.
  pose proof both_in_flight_second as H3.
  assert (late_reservation
          = ((both_in_flight ++ [E_resume bob (K_reserve room_b ann) true ""])
               ++ [E_resume bob (K_update room_b ann) true ""])
              ++ [E_resume cat (K_reserve room_c ann) true ""]) as -> by reflexivity.
  rewrite !run_snoc in H3. rewrite !run_snoc in H2. rewrite run_snoc in H1.
  rewrite !run_snoc.
  destruct (run both_in_flight empty_world) as [w0|]; [|done].
  simpl in H0, H1, H2, H3 |- *. injection H0 as Hb0 Hc0 Hr0 Hcb0 Hcc0.
  destruct (step (E_resume bob (K_reserve room_b ann) true "") w0) as [w1|] eqn:Hs1; [|done].
  simpl in H1, H2, H3 |- *. injection H1 as Hb1 Hr1 Hcc1.
  destruct (step (E_resume bob (K_update room_b ann) true "") w1) as [w2|] eqn:Hs2; [|done].
  simpl in H2, H3 |- *. injection H2 as Hq2 Hm2 Hcc2.
  destruct (step (E_resume cat (K_reserve room_c ann) true "") w2) as [w3|] eqn:Hs3; [|done].
  simpl in H3. injection H3 as Hc3 Hr3.
  exists w0, w1, w2, w3. by split_and!.
Qed.

(** What the database holds after [late_reservation], and after Cat's batch. *)
Lemma late_reservation_rows :
  (λ w, (queue_get ann (queue (w_db w)), matches (w_db w) !! ann))
    <$> run late_reservation empty_world
  = Some (Some (mkQueueEntry None None (Some cat)), Some room_b).
Proof. vm_compute. reflexivity. Qed.

Lemma late_reservation_sessions :
  (λ w, (matches (w_db w) !! bob, matches (w_db w) !! cat,
         rooms (w_db w) !! room_b, rooms (w_db w) !! room_c))
    <$> run (late_reservation ++ [E_resume cat (K_update room_c ann) true ""]) empty_world
  = Some (Some room_b, Some room_c,
          Some (mkRoom bob t0 [bob; ann]), Some (mkRoom cat t0 [cat; ann])).
Proof. vm_compute. reflexivity. Qed.

(** C3. The run [late_reservation] leads to a state in which Ann has a match
    row (Bob's session) and, again, a queue entry: Cat's transaction found
    [reservedBy] empty because the entry was gone, committed, and created the
    entry anew. When Cat's batch is applied next, Ann is a participant of
    Bob's session and of Cat's, both live. *)
Theorem late_reservation_breaks_invariant :
  ∃ w1 w2,
    run late_reservation empty_world = Some w1
    ∧ queue_get ann (queue (w_db w1)) = Some (mkQueueEntry None None (Some cat))
    ∧ matches (w_db w1) !! ann = Some room_b
    ∧ ¬ queue_match_exclusive (w_db w1)
    ∧ step (E_resume cat (K_update room_c ann) true "") w1 = Some w2
    ∧ in_live_session (w_db w2) ann room_b
    ∧ in_live_session (w_db w2) ann room_c
    ∧ ¬ one_session_each (w_db w2).
Proof.
  pose proof late_reservation_rows as Hrows.
  pose proof late_reservation_sessions as Hsess.
  rewrite run_snoc in Hsess.
  destruct (run late_reservation empty_world) as [w1|]; [|done].
  simpl in Hrows, Hsess. injection Hrows as Hq Hm.
  destruct (step (E_resume cat (K_update room_c ann) true "") w1) as [w2|] eqn:Hstep;
    [|done].
  simpl in Hsess. injection Hsess as Hmb Hmc Hrb Hrc.
  assert (in_live_session (w_db w2) ann room_b) as Hb.
  { split; [exists (mkRoom bob t0 [bob; ann]) | by exists bob].
    split; [done|]. apply list_elem_of_In. right. by left. }
  assert (in_live_session (w_db w2) ann room_c) as Hc.
  { split; [exists (mkRoom cat t0 [cat; ann]) | by exists cat].
    split; [done|]. apply list_elem_of_In. right. by left. }
  exists w1, w2. split_and!; try done.
  - intros Hex. specialize (Hex ann). rewrite Hq, Hm in Hex.
    by discriminate Hex.
  - intros Hone. specialize (Hone ann room_b room_c Hb Hc).
    assert (String.eqb room_b room_c = false) as Hne by (vm_compute; reflexivity).
    rewrite Hone, String.eqb_refl in Hne. discriminate Hne.
Qed.

(** ** A lost reservation *)

Lemma committed_false self other d :
  committed self other d = false → ∃ holder, get_reservedBy other d = Some holder.
Proof.
  unfold committed, transaction, reserve_update.
  destruct (get_reservedBy other d) as [h|]; [by exists h | done].
Qed.

Lemma attemptMatch_lost roomId otherUid s holder :
  get_reservedBy otherUid (db s) = Some holder →
  exec (attemptMatch_transaction true roomId otherUid) s =
    mkSys (db s) (app s) (browser s) (pending s ++ [K_queue_set]) (clock s)
          (trace s ++ [Op_reserve (uid (app s)) otherUid]).
Proof. intros Hg. unfold_methods. simpl. by rewrite !Hg. Qed.

(** C7, as the code has it. A lost reservation writes nothing and creates no
    session: the database and the client's fields are as before and no batch
    is issued. The client calls [joinQueue]: it writes its own queue entry
    again, reads the queue afresh and goes for the first key that is neither
    itself nor blocked, whoever that is, or listens when there is none. *)
Theorem lost_reenters_matching (roomId otherUid : string) (s : Sys) :
  committed (uid (app s)) otherUid (db s) = false →
  let s' := exec (attemptMatch_transaction true roomId otherUid) s in
  db s' = db s
  ∧ app s' = app s
  ∧ trace s' = trace s ++ [Op_reserve (uid (app s)) otherUid]
  ∧ s' = exec joinQueue (exec (db_do (Op_reserve (uid (app s)) otherUid)) s)
  ∧ pending s' = pending s ++ [K_queue_set]
  ∧ (∀ s1, trace (exec (joinQueue_set true) s1)
             = trace s1 ++ [Op_queue_set (uid (app s1)) (clock s1)]
           ∧ pending (exec (joinQueue_set true) s1) = pending s1 ++ [K_queue_once])
  ∧ (∀ rnd s2, pending (exec (joinQueue_once true rnd) s2) = pending s2 ++ next_attempt rnd s2
               ∧ trace (exec (joinQueue_once true rnd) s2) = trace s2
               ∧ matchListener (app (exec (joinQueue_once true rnd) s2))
                 = if next_attempt rnd s2 is [] then true else matchListener (app s2)).
Proof.
  intros Hlost. destruct (committed_false _ _ _ Hlost) as [holder Hg].
  cbn zeta. rewrite (attemptMatch_lost _ _ _ _ Hg).
  split_and!; try done.
  - unfold_methods. simpl. by rewrite !Hg.
  - intros rnd s2. unfold next_attempt. unfold_methods. simpl.
    destruct (findPartner _ _ _); simpl; [done|]. by rewrite app_nil_r.
Qed.

Lemma lost_reenters_matching_witness :
  committed ann bob (db waiting_on_reserved) = false
  ∧ pending (exec (attemptMatch_transaction true room_a1 bob) waiting_on_reserved)
    = [K_queue_set]
  ∧ next_attempt "p0o9i8u7y" waiting_on_reserved = [K_reserve room_a2 bob].
Proof.
  pose proof (lost_reenters_matching room_a1 bob waiting_on_reserved eq_refl) as H.
  split; [reflexivity|]. split; [|reflexivity].
  exact (proj1 (proj2 (proj2 (proj2 (proj2 H))))).
Defined.

Lemma reserved_by_another_first :
  (λ w, (ann_next w, w_trace w)) <$> run reserved_by_another empty_world
  = Some (Some [K_reserve room_a1 bob], false,
          [Op_queue_set bob t0; Op_queue_set cat t0; Op_reserve cat bob;
           Op_queue_set ann t0]).
Proof. vm_compute. reflexivity. Qed.

Lemma reserved_by_another_second :
  ann_next <$> run (reserved_by_another ++ retry) empty_world
  = Some (Some [K_reserve room_a2 bob], false).
Proof. vm_compute. reflexivity. Qed.

Lemma reserved_by_another_trace :
  w_trace <$> run ((reserved_by_another ++ retry)
                     ++ [E_resume ann (K_reserve room_a2 bob) true ""]) empty_world
  = Some [Op_queue_set bob t0; Op_queue_set cat t0; Op_reserve cat bob;
          Op_queue_set ann t0;
          Op_reserve ann bob; Op_queue_set ann t0; Op_reserve ann bob].
Proof. vm_compute. reflexivity. Qed.

(** C7, as stated, fails on the run [reserved_by_another]: Ann's transaction
    on Bob is lost (Cat holds the reservation); Ann joins the queue again,
    reads it afresh, and her next transaction is on Bob again, and is lost
    again. *)
Lemma lost_attempt_retries_same_candidate :
  ∃ w1 w2 w3,
    run reserved_by_another empty_world = Some w1
    ∧ c_pending <$> w_clients w1 !! ann = Some [K_reserve room_a1 bob]
    ∧ committed ann bob (w_db w1) = false
    ∧ run retry w1 = Some w2
    ∧ c_pending <$> w_clients w2 !! ann = Some [K_reserve room_a2 bob]
    ∧ committed ann bob (w_db w2) = false
    ∧ step (E_resume ann (K_reserve room_a2 bob) true "") w2 = Some w3
    ∧ w_trace w3 =
        w_trace w1 ++ [Op_reserve ann bob; Op_queue_set ann t0; Op_reserve ann bob].
Proof.
  pose proof reserved_by_another_first as H1.
  pose proof reserved_by_another_second as H2.
  pose proof reserved_by_another_trace as H3.
  rewrite run_snoc, run_app in H3. rewrite run_app in H2.
  destruct (run reserved_by_another empty_world) as [w1|]; [|done].
  simpl in H1, H2, H3. injection H1 as Hp1 Hc1 Ht1.
  destruct (run retry w1) as [w2|] eqn:Hretry; [|done].
  simpl in H2, H3. injection H2 as Hp2 Hc2.
  destruct (step (E_resume ann (K_reserve room_a2 bob) true "") w2) as [w3|] eqn:Hstep;
    [|done].
  simpl in H3. injection H3 as Ht3.
  exists w1, w2, w3. rewrite Ht1, Ht3. by split_and!.
Qed.

Lemma reports_never_lost_witness :
  ∃ w', run two_reports empty_world = Some w'
        ∧ or_zero (reports (w_db w') !! bob) = 0 + 2
        ∧ ((2 ≠ 0)%nat → reports (w_db w') !! bob = Some (0 + 2)).
Proof.
  destruct (run two_reports empty_world) as [w'|] eqn:Hrun.
  - exists w'. split; [reflexivity|].
    exact (reports_never_lost two_reports empty_world w' bob Hrun).
  - vm_compute in Hrun. discriminate Hrun.
Defined.

(** ** Debounced rejoin *)

Lemma insert_by_due_perm x l : insert_by_due x l ≡ₚ x :: l.
Proof.
  induction l as [|y l IH]; simpl; [done|].
  case_bool_decide; [done|]. rewrite IH. apply Permutation_swap.
Qed.

Lemma by_due_perm l : by_due l ≡ₚ l.
Proof.
  induction l as [|x l IH]; simpl; [done|].
  by rewrite insert_by_due_perm, IH.
Qed.

Lemma skip_timers_by_due_nil l : skip_timers l = [] → skip_timers (by_due l) = [].
Proof.
  intros H. apply Permutation_nil_r. unfold skip_timers in *.
  by rewrite by_due_perm, H.
Qed.

Lemma skip_timers_by_due_one l x : skip_timers l = [x] → skip_timers (by_due l) = [x].
Proof.
  intros H. apply Permutation_singleton_r. unfold skip_timers in *.
  by rewrite by_due_perm, H.
Qed.

Lemma skip_timers_app l1 l2 : skip_timers (l1 ++ l2) = skip_timers l1 ++ skip_timers l2.
Proof. apply filter_app. Qed.

Lemma skip_timers_later t l :
  Forall (λ x, t_kind x = Rejoin_skip → t < t_due x) l →
  skip_timers (filter (λ x, ¬ t_due x ≤ t) l) = skip_timers l
  ∧ skip_timers (filter (λ x, t_due x ≤ t) l) = [].
Proof.
  unfold skip_timers. induction 1 as [|x l Hx _ [IH1 IH2]]; [done|].
  rewrite !(filter_cons _ x).
  destruct (decide (¬ t_due x ≤ t)) as [Hlate|Hdue];
    destruct (decide (t_due x ≤ t)) as [Hd|Hd]; try lia;
    rewrite ?(filter_cons _ x);
    destruct (decide (t_kind x = Rejoin_skip)) as [Hk|Hk];
    try (specialize (Hx Hk); lia); by rewrite ?IH1, ?IH2.
Qed.

Lemma skip_timers_cleared i l :
  Forall (λ x, t_kind x = Rejoin_skip → t_id x = i) l →
  skip_timers (filter (λ x, t_id x ≠ i) l) = [].
Proof.
  unfold skip_timers. induction 1 as [|x l Hx _ IH]; [done|].
  rewrite filter_cons. destruct (decide (t_id x ≠ i)) as [Hi|Hi]; [|done].
  rewrite filter_cons_False; [done|]. intros Hk. by apply Hi, Hx.
Qed.

Lemma Forall_filter_keep {A} (P Q : A → Prop) `{∀ x, Decision (Q x)} (l : list A) :
  Forall P l → Forall P (filter Q l).
Proof.
  rewrite !Forall_forall. intros Hall x [_ Hx]%list_elem_of_filter. by apply Hall.
Qed.

Lemma skip_timers_none l :
  Forall (λ x, t_kind x ≠ Rejoin_skip) l → skip_timers l = [].
Proof.
  unfold skip_timers. induction 1 as [|x l Hx _ IH]; [done|].
  by rewrite filter_cons_False.
Qed.

Lemma handleNext_timers s :
  let b := browser s in
  let s' := exec handleNext s in
  browser s' =
    mkBrowser (stored_blocked b)
      (match matchTimeout (app s) with
       | Some i => filter (λ x, t_id x ≠ i) (timers b)
       | None => timers b
       end ++ [mkTimer (next_timer b) (clock s + 500) Rejoin_skip])
      (S (next_timer b)) (fired b)
  ∧ matchTimeout (app s') = Some (next_timer b)
  ∧ clock s' = clock s.
Proof. by run_methods. Qed.

Lemma skip_arms t s :
  quiet t s → armed t (skip_timers (fired (browser s))) (exec (elapse t ;; handleNext) s).
Proof.
  intros [Hclock Hq].
  assert (exec (elapse t ;; handleNext) s = exec handleNext (exec (elapse t) s)) as ->
    by done.
  destruct (handleNext_timers (exec (elapse t) s)) as (Hb & Hm & Hc).
  set (s1 := exec (elapse t) s) in *.
  assert (skip_timers (timers (browser s1)) = skip_timers (timers (browser s))
          ∧ skip_timers (fired (browser s1)) = skip_timers (fired (browser s))) as [Ht Hf].
  { subst s1. unfold exec, elapse. simpl.
    destruct (skip_timers_later t (timers (browser s))) as [H1 H2].
    { eapply Forall_impl; [exact Hq|]. intros x Hx Hk. by destruct (Hx Hk). }
    split; [done|]. rewrite skip_timers_app, (skip_timers_by_due_nil _ H2).
    apply app_nil_r. }
  assert (matchTimeout (app s1) = matchTimeout (app s)) as Happ by done.
  assert (clock s1 = t) as Hc1 by (subst s1; unfold exec, elapse; simpl; lia).
  split; [lia|]. exists (next_timer (browser s1)). split; [done|].
  rewrite Hb. cbn [timers fired]. split; [|done].
  rewrite skip_timers_app, Hc1.
  assert (skip_timers
            match matchTimeout (app s1) with
            | Some i => filter (λ x, t_id x ≠ i) (timers (browser s1))
            | None => timers (browser s1)
            end = []) as ->; [|done].
  assert (Forall (λ x, t_kind x = Rejoin_skip → matchTimeout (app s) = Some (t_id x))
            (timers (browser s1))) as Hq1.
  { subst s1. unfold exec, elapse. simpl. apply Forall_filter_keep.
    eapply Forall_impl; [exact Hq|]. intros x Hx Hk. by destruct (Hx Hk). }
  rewrite Happ. destruct (matchTimeout (app s)) as [i|].
  - apply skip_timers_cleared. eapply Forall_impl; [exact Hq1|].
    intros x Hx Hk. specialize (Hx Hk). by injection Hx.
  - apply skip_timers_none. eapply Forall_impl; [exact Hq1|].
    intros x Hx Hk. by specialize (Hx Hk).
Qed.

Lemma armed_quiet t t' F s : armed t F s → t ≤ t' < t + 500 → quiet t' s.
Proof.
  intros (Hc & id & Hm & Ht & _) Hrapid. split; [lia|].
  apply Forall_forall. intros x Hx Hk.
  assert (x ∈ skip_timers (timers (browser s))) as Hin
    by by apply list_elem_of_filter.
  rewrite Ht in Hin. apply list_elem_of_singleton in Hin as ->. simpl. split; [done | lia].
Qed.

Lemma exec_bind {A B} (m : M A) (f : A → M B) (s : Sys) :
  exec (m ≫= f) s = exec (f (m s).1) (exec m s).
Proof. unfold exec, mbind, M_bind. by destruct (m s). Qed.

Lemma skips_cons t ts s :
  exec (skips (t :: ts)) s = exec (skips ts) (exec (elapse t ;; handleNext) s).
Proof. cbn [skips]. by rewrite !exec_bind. Qed.

Lemma last_cons_default {A} (l : list A) (a d : A) : List.last (a :: l) d = List.last l a.
Proof.
  revert a d. induction l as [|b l IH]; intros a d; [done|].
  change (List.last (a :: b :: l) d) with (List.last (b :: l) d).
  by rewrite (IH b d), (IH b a).
Qed.

Lemma skips_armed t ts F s :
  armed t F s → rapid t ts → armed (List.last ts t) F (exec (skips ts) s).
Proof.
  revert t s. induction ts as [|t' ts IH]; intros t s Harmed Hrapid; [exact Harmed|].
  destruct Hrapid as [Hnear Hrapid].
  rewrite skips_cons.
  pose proof (skip_arms t' s (armed_quiet _ _ _ _ Harmed Hnear)) as Hnext.
  assert (skip_timers (fired (browser s)) = F) as HF by (by destruct Harmed as (_ & _ & _ & _ & ?)).
  rewrite HF in Hnext. rewrite last_cons_default. by apply IH.
Qed.

Lemma armed_fires t F s id T :
  armed t F s →
  matchTimeout (app s) = Some id →
  (T < t + 500 → skip_timers (fired (browser (exec (elapse T) s))) = F)
  ∧ (t + 500 ≤ T →
     skip_timers (fired (browser (exec (elapse T) s)))
     = F ++ [mkTimer id (t + 500) Rejoin_skip]
     ∧ skip_timers (timers (browser (exec (elapse T) s))) = []).
Proof.
  intros (Hc & id' & Hm & Ht & Hf) Hid. rewrite Hm in Hid. injection Hid as ->.
  unfold exec, elapse. cbn [snd browser timers fired].
  rewrite skip_timers_app, Hf.
  assert (∀ P `{∀ x, Decision (P x)},
            skip_timers (filter P (timers (browser s)))
            = filter P (skip_timers (timers (browser s)))) as Hcomm.
  { intros P ?. unfold skip_timers. rewrite !list_filter_filter.
    apply list_filter_iff. tauto. }
  split.
  - intros Hearly. rewrite (skip_timers_by_due_nil _); [apply app_nil_r|].
    rewrite Hcomm, Ht. by rewrite filter_cons_False by (simpl; lia).
  - intros Hlate. split.
    + f_equal. apply skip_timers_by_due_one.
      rewrite Hcomm, Ht. by rewrite filter_cons_True by (simpl; lia).
    + rewrite Hcomm, Ht. by rewrite filter_cons_False by (simpl; lia).
Qed.

(** C9. The skip button is pressed at [t] and then at the times [ts], each
    less than 500 ms after the one before. Then none of the rejoins that
    these presses scheduled has run by the last press, exactly one is
    pending afterwards, named by [matchTimeout] and due 500 ms after the
    last press; it has not run at any time before that, and once that time
    has come it is the one rejoin that has run. *)
Theorem skips_coalesce (t : Z) (ts : list Z) (s : Sys) :
  quiet t s →
  rapid t ts →
  let final := List.last ts t in
  let s' := exec (skips (t :: ts)) s in
  let F := skip_timers (fired (browser s)) in
  ∃ id,
    matchTimeout (app s') = Some id
    ∧ skip_timers (timers (browser s')) = [mkTimer id (final + 500) Rejoin_skip]
    ∧ skip_timers (fired (browser s')) = F
    ∧ (∀ T, T < final + 500 → skip_timers (fired (browser (exec (elapse T) s'))) = F)
    ∧ (∀ T, final + 500 ≤ T →
        skip_timers (fired (browser (exec (elapse T) s')))
        = F ++ [mkTimer id (final + 500) Rejoin_skip]
        ∧ skip_timers (timers (browser (exec (elapse T) s'))) = []).
Proof.
  intros Hquiet Hrapid. cbn zeta.
  rewrite skips_cons.
  pose proof (skips_armed _ _ _ _ (skip_arms t s Hquiet) Hrapid) as Harmed.
  pose proof Harmed as (Hc & id & Hm & Ht & Hf).
  exists id. split_and!; [done..| |].
  - intros T HT. by apply (armed_fires _ _ _ id T Harmed Hm).
  - intros T HT. by apply (armed_fires _ _ _ id T Harmed Hm).
Qed.

Lemma skips_coalesce_witness :
  quiet t0 calling
  ∧ rapid t0 [t0 + 120; t0 + 500]
  ∧ ∃ id,
      matchTimeout (app (exec (skips [t0; t0 + 120; t0 + 500]) calling)) = Some id
      ∧ skip_timers (timers (browser (exec (skips [t0; t0 + 120; t0 + 500]) calling)))
        = [mkTimer id (t0 + 500 + 500) Rejoin_skip].
Proof.
  assert (quiet t0 calling) as Hq by (split; [reflexivity | constructor]).
  assert (rapid t0 [t0 + 120; t0 + 500]) as Hr by (unfold t0; simpl; lia).
  destruct (skips_coalesce t0 [t0 + 120; t0 + 500] calling Hq Hr) as (id & Hm & Ht & _).
  split; [exact Hq|]. split; [exact Hr|]. exists id. split; [exact Hm | exact Ht].
Defined.

(** ** Report and block *)

Lemma findPartner_excluded keys self blocked u :
  findPartner keys self blocked = Some u → u ≠ self ∧ u ∉ blocked.
Proof.
  unfold findPartner, otherUsers. intros H.
  apply head_Some_elem_of, list_elem_of_filter in H. tauto.
Qed.

Lemma find_target_other self ps t :
  find_target self ps = Some t → t ≠ self ∧ t ∈ ps.
Proof.
  unfold find_target. intros H.
  apply head_Some_elem_of, list_elem_of_filter in H. tauto.
Qed.

Lemma truthy_Some (r : string) : r ≠ "" → truthy (Some r) = true.
Proof. intros H. simpl. by apply negb_true_iff, String.eqb_neq. Qed.

Lemma take_task_frame k s s' :
  take_task k s = Some s' →
  db s' = db s ∧ app s' = app s ∧ browser s' = browser s ∧ clock s' = clock s
  ∧ trace s' = trace s.
Proof.
  unfold take_task. intros H. apply bind_Some in H as (l & _ & H).
  by injection H as <-.
Qed.

Lemma remove_first_last k l : is_Some (remove_first k (l ++ [k])).
Proof.
  induction l as [|k' l [l' IH]]; simpl.
  - by rewrite decide_True.
  - destruct (decide (k = k')); [done|]. by rewrite IH.
Qed.

Lemma take_task_spawned k s : is_Some (take_task k (exec (spawn k) s)).
Proof.
  unfold take_task, exec, spawn. simpl.
  by destruct (remove_first_last k (pending s)) as [l ->].
Qed.

Lemma handleNext_app s :
  app (exec handleNext s) =
    mkApp (uid (app s)) (if truthy (currentRoom (app s)) then None else currentRoom (app s))
          None false (Some (next_timer (browser s))) (blockedUsers (app s)) false
  ∧ reports (db (exec handleNext s)) = reports (db s).
Proof. by run_methods. Qed.

Lemma addToBlockedUsers_spec u s :
  let s' := exec (addToBlockedUsers u) s in
  blockedUsers (app s') =
    (if bool_decide (u ∈ blockedUsers (app s)) then blockedUsers (app s)
     else blockedUsers (app s) ++ [u])
  ∧ stored_blocked (browser s') =
    (if bool_decide (u ∈ blockedUsers (app s)) then stored_blocked (browser s)
     else Some (blockedUsers (app s) ++ [u]))
  ∧ db s' = db s ∧ clock s' = clock s ∧ timers (browser s') = timers (browser s)
  ∧ next_timer (browser s') = next_timer (browser s)
  ∧ currentRoom (app s') = currentRoom (app s) ∧ uid (app s') = uid (app s)
  ∧ matchTimeout (app s') = matchTimeout (app s).
Proof. by run_methods. Qed.

Lemma handleReport_in_room s r :
  currentRoom (app s) = Some r → r ≠ "" →
  exec handleReport s = exec (spawn (K_participants r)) s.
Proof.
  intros Hr Hne. unfold_methods. simpl. rewrite Hr, (truthy_Some r Hne). simpl.
  by rewrite Hr, (truthy_Some r Hne).
Qed.

Lemma handleReport_participants_found s r room t :
  rooms (db s) !! r = Some room →
  find_target (uid (app s)) (participants room) = Some t → t ≠ "" →
  exec (handleReport_participants true r) s = exec (spawn (K_report t)) s.
Proof.
  intros Hroom Ht Hne. unfold_methods. unfold read_participants. simpl.
  rewrite Hroom. simpl. rewrite Ht. by rewrite (truthy_Some t Hne).
Qed.

Lemma handleReport_participants_none s ok r :
  find_target (uid (app s)) (read_participants ok r (db s)) = None →
  exec (handleReport_participants ok r) s = s.
Proof. intros H. unfold_methods. simpl. rewrite H. by destruct s. Qed.

Lemma handleReport_transaction_steps s t :
  exec (handleReport_transaction true t) s
  = exec handleNext (exec (addToBlockedUsers t) (exec (db_do (Op_report t)) s)).
Proof. unfold handleReport_transaction. by rewrite !exec_bind. Qed.

(** C10. In a session whose room lists somebody else, the three steps of a
    report (the button, the participants read, the transaction) can take
    place and leave: the partner's counter one higher; the partner on the
    block list, once, the list otherwise as it was, and the stored list
    equal to it; the skip done (no room any more, the rejoin timer set). From
    then on, however the list grows, [findPartner] does not yield the
    partner. When the participants cannot be read, or list nobody else, the
    step changes nothing; with no room the button does nothing. *)
Theorem report_blocks_partner :
  (∀ (s : Sys) (r t : string) (room : Room),
     currentRoom (app s) = Some r → r ≠ "" →
     rooms (db s) !! r = Some room →
     find_target (uid (app s)) (participants room) = Some t → t ≠ "" →
     NoDup (blockedUsers (app s)) →
     getBlockedUsers (browser s) = blockedUsers (app s) →
     ∃ s1 s2 s3,
       react (E_report (uid (app s))) s = Some s1
       ∧ react (E_resume (uid (app s)) (K_participants r) true "") s1 = Some s2
       ∧ react (E_resume (uid (app s)) (K_report t) true "") s2 = Some s3
       ∧ t ≠ uid (app s) ∧ t ∈ participants room
       ∧ reports (db s3) !! t = Some (or_zero (reports (db s) !! t) + 1)
       ∧ blockedUsers (app s3) =
           (if bool_decide (t ∈ blockedUsers (app s)) then blockedUsers (app s)
            else blockedUsers (app s) ++ [t])
       ∧ t ∈ blockedUsers (app s3)
       ∧ NoDup (blockedUsers (app s3))
       ∧ getBlockedUsers (browser s3) = blockedUsers (app s3)
       ∧ currentRoom (app s3) = None
       ∧ matchTimeout (app s3) = Some (next_timer (browser s))
       ∧ mkTimer (next_timer (browser s)) (clock s + 500) Rejoin_skip ∈ timers (browser s3)
       ∧ (∀ keys more,
            findPartner keys (uid (app s3)) (blockedUsers (app s3) ++ more) ≠ Some t))
  ∧ (∀ (s : Sys) (ok : bool) (r : string),
       find_target (uid (app s)) (read_participants ok r (db s)) = None →
       exec (handleReport_participants ok r) s = s)
  ∧ (∀ (s : Sys) (r : string), exec (handleReport_participants false r) s = s)
  ∧ (∀ s : Sys, currentRoom (app s) = None → exec handleReport s = s).
Proof.
  split_and!.
  - intros s r t room Hr Hrne Hroom Ht Htne Hnodup Hstored.
    destruct (find_target_other _ _ _ Ht) as [Hself Hin].
    (* the button *)
    assert (react (E_report (uid (app s))) s = Some (exec (spawn (K_participants r)) s))
      as H1 by (simpl; by rewrite (handleReport_in_room s r Hr Hrne)).
    (* the participants *)
    destruct (take_task_spawned (K_participants r) s) as [s1' Htake1].
    destruct (take_task_frame _ _ _ Htake1) as (Hdb1 & Happ1 & Hbr1 & Hcl1 & _).
    simpl in Hdb1, Happ1, Hbr1, Hcl1.
    assert (react (E_resume (uid (app s)) (K_participants r) true "")
              (exec (spawn (K_participants r)) s) = Some (exec (spawn (K_report t)) s1'))
      as H2.
    { simpl. rewrite Htake1. simpl. f_equal.
      apply handleReport_participants_found with room; by rewrite ?Hdb1, ?Happ1. }
    (* the transaction *)
    destruct (take_task_spawned (K_report t) s1') as [s2' Htake2].
    destruct (take_task_frame _ _ _ Htake2) as (Hdb2 & Happ2 & Hbr2 & Hcl2 & _).
    simpl in Hdb2, Happ2, Hbr2, Hcl2.
    assert (react (E_resume (uid (app s)) (K_report t) true "")
              (exec (spawn (K_report t)) s1')
            = Some (exec handleNext (exec (addToBlockedUsers t)
                                       (exec (db_do (Op_report t)) s2')))) as H3.
    { simpl. rewrite Htake2. simpl. f_equal. apply handleReport_transaction_steps. }
    eexists _, _, _. split; [exact H1|]. split; [exact H2|]. split; [exact H3|].
    clear H1 H2 H3.
    set (sa := exec (db_do (Op_report t)) s2').
    assert (reports (db sa) !! t = Some (or_zero (reports (db s) !! t) + 1)
            ∧ app sa = app s ∧ browser sa = browser s ∧ clock sa = clock s) as (Hrep & Ha & Hb & Hc).
    { subst sa. unfold exec, db_do, exec_op, transaction, report_update. simpl.
      rewrite lookup_insert_eq, Hdb2, Hdb1, Happ2, Happ1, Hbr2, Hbr1, Hcl2, Hcl1. done. }
    destruct (addToBlockedUsers_spec t sa)
      as (Hbl & Hst & Hdbb & Hclb & Htmb & Hntb & Hcrb & Huidb & Hmtb).
    set (sb := exec (addToBlockedUsers t) sa) in *.
    destruct (handleNext_app sb) as [Happn Hrepn].
    destruct (handleNext_timers sb) as (Hbrn & Hmtn & Hcln).
    rewrite Ha in Hbl, Hst, Hcrb, Huidb. rewrite Hb in Hst, Htmb, Hntb.
    assert (blockedUsers (app (exec handleNext sb)) = blockedUsers (app sb)) as Hsame
      by by rewrite Happn.
    assert (t ∈ blockedUsers (app sb)) as Htin.
    { rewrite Hbl. case_bool_decide; [done|]. set_solver. }
    split_and!; try done.
    + by rewrite Hrepn, Hdbb.
    + by rewrite Hsame.
    + by rewrite Hsame.
    + rewrite Hsame, Hbl. case_bool_decide; [done|].
      apply NoDup_app. split_and!; [done| |apply NoDup_singleton].
      intros x Hx ->%list_elem_of_singleton. done.
    + rewrite Hsame, Hbrn. unfold getBlockedUsers. cbn [stored_blocked].
      rewrite Hst, Hbl. case_bool_decide; [|done]. exact Hstored.
    + rewrite Happn. cbn [currentRoom]. by rewrite Hcrb, Hr, (truthy_Some r Hrne).
    + by rewrite Hmtn, Hntb.
    + rewrite Hbrn. cbn [timers]. rewrite Hntb, Hclb, Hc. set_solver.
    + intros keys more Hfind. apply findPartner_excluded in Hfind as [_ Hnot].
      apply Hnot. rewrite Hsame. set_solver.
  - intros s ok r. apply handleReport_participants_none.
  - intros s r. by apply handleReport_participants_none.
  - intros s Hnone. unfold_methods. simpl. rewrite Hnone. simpl. by destruct s.
Qed.

Lemma report_blocks_partner_witness :
  ∃ s1 s2 s3,
    react (E_report ann) calling = Some s1
    ∧ react (E_resume ann (K_participants room_b) true "") s1 = Some s2
    ∧ react (E_resume ann (K_report bob) true "") s2 = Some s3
    ∧ reports (db s3) !! bob = Some (0 + 1)
    ∧ bob ∈ blockedUsers (app s3)
    ∧ currentRoom (app s3) = None.
Proof.
  assert (room_b ≠ "") as Hroom by (vm_compute; discriminate).
  assert (bob ≠ "") as Hbob by (vm_compute; discriminate).
  assert (rooms (db calling) !! room_b = Some (mkRoom ann t0 [ann; bob])) as Hrow
    by (vm_compute; reflexivity).
  assert (find_target (uid (app calling)) (participants (mkRoom ann t0 [ann; bob]))
          = Some bob) as Htarget by (vm_compute; reflexivity).
  destruct (proj1 report_blocks_partner calling room_b bob (mkRoom ann t0 [ann; bob])
              eq_refl Hroom Hrow Htarget Hbob (NoDup_nil_2 : NoDup (blockedUsers (app calling)))
              eq_refl)
    as (s1 & s2 & s3 & H1 & H2 & H3 & _ & _ & Hrep & _ & Hin & _ & _ & Hcur & _).
  exists s1, s2, s3. split; [exact H1|]. split; [exact H2|]. split; [exact H3|].
  split; [exact Hrep|]. split; [exact Hin | exact Hcur].
Defined.

(** ** The signalling relay *)

Import Relay.

Lemma on_answer_open v r :
  currentRemoteDescription (pc r) = None →
  on_answer (Some v) r
  = mkSide (pc r) (handed r ++ [v]) (awaits r ++ [A_answer_applied v]) (sent r).
Proof. intros H. unfold on_answer. by rewrite H. Qed.

Lemma on_offer_open v r :
  currentRemoteDescription (pc r) = None →
  on_offer (Some v) r
  = mkSide (pc r) (handed r ++ [v]) (awaits r ++ [A_offer_applied v]) (sent r).
Proof. intros H. unfold on_offer. by rewrite H. Qed.

(** C6. While no remote description is current, every delivery of the same
    value is handed to [setRemoteDescription]: two deliveries in a row, with
    the call of the first still in flight, hand it twice, on the caller's
    side and on the callee's. On the callee's side this holds even after the
    first call has completed, until the answer is set. *)
Theorem delivered_twice_handed_twice (v : Sdp) (r : Side) :
  currentRemoteDescription (pc r) = None →
  handed (foldl caller_step r [Deliver (Some v); Deliver (Some v)]) = handed r ++ [v; v]
  ∧ handed (foldl callee_step r [Deliver (Some v); Deliver (Some v)]) = handed r ++ [v; v]
  ∧ (awaits r = [] → signalingState (pc r) = Stable → sdp_type v = "offer" →
     ∀ created,
       handed (foldl callee_step r [Deliver (Some v); Resolve created; Deliver (Some v)])
       = handed r ++ [v; v]).
Proof.
  intros Hnone. split_and!.
  - cbn [foldl caller_step]. rewrite (on_answer_open v r Hnone).
    rewrite on_answer_open by done. cbn [handed]. by rewrite <- app_assoc.
  - cbn [foldl callee_step]. rewrite (on_offer_open v r Hnone).
    rewrite on_offer_open by done. cbn [handed]. by rewrite <- app_assoc.
  - intros Hidle Hstable Hoffer created. cbn [foldl callee_step].
    rewrite (on_offer_open v r Hnone). unfold resolve, settle. cbn [awaits pc].
    rewrite Hidle, app_nil_l. cbv iota. rewrite Hoffer, Hstable. simpl String.eqb.
    cbv iota.
    rewrite on_offer_open by (cbn [pc currentRemoteDescription]; exact Hnone).
    cbn [handed]. by rewrite <- app_assoc.
Qed.

Lemma delivered_twice_handed_twice_witness :
  currentRemoteDescription (pc (caller_side an_offer)) = None
  ∧ handed (foldl caller_step (caller_side an_offer)
              [Deliver (Some an_answer); Deliver (Some an_answer)])
    = [an_answer; an_answer].
Proof.
  split; [reflexivity|].
  exact (proj1 (delivered_twice_handed_twice an_answer (caller_side an_offer) eq_refl)).
Defined.


(** * Further properties of the methods *)

(** ** [cleanup] *)

(** X1. After [cleanup] the client has no queue entry, no peer connection, no
    match listener, and, if it had a room, neither the room nor its own
    match row. Nothing else in the database changes: rooms are not removed,
    and the rows and entries of other clients (the partner's among them)
    stay. The block list, the timers and the awaits in flight stay too. *)
Theorem cleanup_effect (s : Sys) :
  let s' := exec cleanup s in
  let self := uid (app s) in
  queue_get self (queue (db s')) = None
  ∧ (if truthy (currentRoom (app s))
     then matches (db s') !! self = None ∧ currentRoom (app s') = None
     else matches (db s') = matches (db s) ∧ currentRoom (app s') = currentRoom (app s))
  ∧ peerConnection (app s') = None
  ∧ matchListener (app s') = false
  ∧ isConnected (app s') = false
  ∧ rooms (db s') = rooms (db s)
  ∧ reports (db s') = reports (db s)
  ∧ (∀ c, c ≠ self →
       matches (db s') !! c = matches (db s) !! c
       ∧ queue_get c (queue (db s')) = queue_get c (queue (db s)))
  ∧ blockedUsers (app s') = blockedUsers (app s)
  ∧ matchTimeout (app s') = matchTimeout (app s)
  ∧ browser s' = browser s
  ∧ pending s' = pending s.
Proof.
  unfold_methods. simpl. destruct (truthy (currentRoom (app s))) eqn:Hroom; simpl.
  - split_and!; try done.
    + apply queue_get_del_eq.
    + apply lookup_delete_eq.
    + intros c Hc. split; [by apply lookup_delete_ne | by apply queue_get_del_ne].
  - split_and!; try done.
    + apply queue_get_del_eq.
    + intros c Hc. split; [done | by apply queue_get_del_ne].
Qed.

(** ** [handleMatchFound] *)

Lemma handleMatchFound_spec (v : option string) (s : Sys) :
  exec (handleMatchFound v) s =
    if truthy v && bool_decide (v ≠ currentRoom (app s))
    then mkSys (db s) (set_peerConnection (Some Callee) (set_currentRoom v (app s)))
               (browser s) (pending s) (clock s) (trace s)
    else s.
Proof.
  unfold_methods. destruct v as [r|]; [|by destruct s].
  destruct (truthy (Some r) && bool_decide (Some r ≠ currentRoom (app s)));
    simpl; by destruct s.
Qed.

(** X2. The match listener acts once per room id: a [null] row, an empty id and
    the id of the current room change nothing, so delivering the same value
    again after it was handled is without effect. A different id replaces
    the current room and makes the client the callee. *)
Theorem handleMatchFound_once (v : option string) (s : Sys) :
  exec (handleMatchFound v) (exec (handleMatchFound v) s) = exec (handleMatchFound v) s
  ∧ exec (handleMatchFound None) s = s
  ∧ exec (handleMatchFound (currentRoom (app s))) s = s
  ∧ (truthy v = true → v ≠ currentRoom (app s) →
     currentRoom (app (exec (handleMatchFound v) s)) = v
     ∧ peerConnection (app (exec (handleMatchFound v) s)) = Some Callee
     ∧ db (exec (handleMatchFound v) s) = db s).
Proof.
  split_and!.
  - rewrite (handleMatchFound_spec v s).
    destruct (truthy v && bool_decide (v ≠ currentRoom (app s))) eqn:Hguard.
    + rewrite handleMatchFound_spec. cbn [app currentRoom set_peerConnection set_currentRoom].
      rewrite (bool_decide_false (v ≠ v)) by (intros H; by apply H).
      by rewrite andb_false_r.
    + by rewrite handleMatchFound_spec, Hguard.
  - by rewrite handleMatchFound_spec.
  - rewrite handleMatchFound_spec.
    rewrite (bool_decide_false (_ ≠ _)) by (intros H; by apply H).
    by rewrite andb_false_r.
  - intros Hv Hne. rewrite handleMatchFound_spec, Hv.
    by rewrite bool_decide_true.
Qed.

(** ** What every page keeps *)

Lemma NoDup_ids_filter (P : Timer → Prop) `{∀ x, Decision (P x)} (l : list Timer) :
  NoDup (t_id <$> l) → NoDup (t_id <$> filter P l).
Proof.
  intros Hnd. eapply sublist_NoDup; [exact Hnd|].
  apply fmap_sublist, sublist_filter.
Qed.

Lemma page_ok_new_timer a b l t kind mt :
  Forall (λ x, (t_id x < next_timer b)%nat) l →
  NoDup (t_id <$> l) →
  Forall (λ x, t_kind x = Rejoin_skip → mt = Some (t_id x)) l →
  (kind = Rejoin_skip → mt = Some (next_timer b)) →
  NoDup (blockedUsers a) →
  default [] (stored_blocked b) = blockedUsers a →
  matchTimeout a = mt →
  (∀ i, mt = Some i → (i ≤ next_timer b)%nat) →
  page_ok a (mkBrowser (stored_blocked b) (l ++ [mkTimer (next_timer b) t kind])
               (S (next_timer b)) (fired b)).
Proof.
  intros Hlt Hnd Hskip Hkind Hbl Hst Hmt Hbound. unfold page_ok, getBlockedUsers.
  cbn [stored_blocked timers next_timer]. split_and!; [done..| | | |].
  - apply Forall_app. split; [|by repeat constructor; simpl; lia].
    eapply Forall_impl; [exact Hlt|]. simpl. lia.
  - rewrite fmap_app. apply NoDup_app. split_and!; [done| |apply NoDup_singleton].
    intros i Hi ->%list_elem_of_singleton. simpl in Hi.
    apply list_elem_of_fmap in Hi as (x & Hx & Hin).
    rewrite Forall_forall in Hlt. specialize (Hlt x Hin). lia.
  - rewrite Hmt. apply Forall_app. split; [done|]. by repeat constructor.
  - rewrite Hmt. intros i Hi. specialize (Hbound i Hi). lia.
Qed.

Lemma page_ok_handleNext s :
  page_ok (app s) (browser s) → page_ok (app (exec handleNext s)) (browser (exec handleNext s)).
Proof.
  intros (Hbl & Hst & Hlt & Hnd & Hskip & Hbound).
  destruct (handleNext_timers s) as (Hb & Hm & _).
  destruct (handleNext_app s) as [Ha _].
  rewrite Hb. apply page_ok_new_timer with (mt := Some (next_timer (browser s)));
    [..|by intros i [= <-]].
  - destruct (matchTimeout (app s)); [by apply Forall_filter_keep | done].
  - destruct (matchTimeout (app s)); [by apply NoDup_ids_filter | done].
  - apply Forall_forall. intros x Hx Hk. exfalso.
    rewrite Forall_forall in Hskip.
    destruct (matchTimeout (app s)) as [i|] eqn:Hmt.
    + apply list_elem_of_filter in Hx as [Hne Hx].
      specialize (Hskip x Hx Hk). by injection Hskip as ->.
    + by specialize (Hskip x Hx Hk).
  - done.
  - by rewrite Ha.
  - by rewrite Ha.
  - done.
Qed.

Lemma page_ok_frame a b a' b' :
  page_ok a b →
  blockedUsers a' = blockedUsers a → matchTimeout a' = matchTimeout a →
  stored_blocked b' = stored_blocked b → timers b' = timers b →
  next_timer b' = next_timer b →
  page_ok a' b'.
Proof.
  unfold page_ok, getBlockedUsers. intros H -> -> -> -> ->. exact H.
Qed.

Lemma page_ok_cleanup s :
  page_ok (app s) (browser s) → page_ok (app (exec cleanup s)) (browser (exec cleanup s)).
Proof.
  intros H. eapply page_ok_frame; [exact H|..]; by run_methods.
Qed.

Lemma page_ok_addToBlockedUsers u s :
  page_ok (app s) (browser s) →
  page_ok (app (exec (addToBlockedUsers u) s)) (browser (exec (addToBlockedUsers u) s)).
Proof.
  intros (Hbl & Hst & Hlt & Hnd & Hskip & Hbound).
  destruct (addToBlockedUsers_spec u s) as (Hb & Hs & _ & _ & Ht & Hn & _ & _ & Hm).
  unfold page_ok, getBlockedUsers. rewrite Hb, Hs, Ht, Hn, Hm.
  split_and!; try done.
  - case_bool_decide; [done|]. apply NoDup_app. split_and!; [done| |apply NoDup_singleton].
    by intros x Hx ->%list_elem_of_singleton.
  - by case_bool_decide.
Qed.

Lemma page_ok_setTimeout kind delay s :
  kind ≠ Rejoin_skip →
  page_ok (app s) (browser s) →
  page_ok (app (exec (setTimeout kind delay) s)) (browser (exec (setTimeout kind delay) s)).
Proof.
  intros Hkind (Hbl & Hst & Hlt & Hnd & Hskip & Hbound). unfold_methods. simpl.
  apply page_ok_new_timer with (mt := matchTimeout (app s)); try done.
  intros i Hi. specialize (Hbound i Hi). lia.
Qed.

Lemma take_timer_page_ok id s s' :
  take_timer id s = Some s' →
  page_ok (app s) (browser s) → page_ok (app s') (browser s') ∧ app s' = app s.
Proof.
  unfold take_timer. intros H (Hbl & Hst & Hlt & Hnd & Hskip & Hbound).
  apply bind_Some in H as (t & _ & H). case_bool_decide; [|done]. injection H as <-.
  split; [|done]. unfold page_ok, getBlockedUsers. cbn [app browser stored_blocked timers next_timer].
  split_and!; [done..| | | |done].
  - by apply Forall_filter_keep.
  - by apply NoDup_ids_filter.
  - by apply Forall_filter_keep.
Qed.

Lemma resume_page_ok k ok rnd s :
  page_ok (app s) (browser s) →
  page_ok (app (exec (resume k ok rnd) s)) (browser (exec (resume k ok rnd) s))
  ∧ uid (app (exec (resume k ok rnd) s)) = uid (app s).
Proof.
  intros H.
  destruct k; try (split; [eapply page_ok_frame; [exact H|..]|]; destruct ok; by run_methods).
  destruct ok; [|done]. cbn [resume]. rewrite handleReport_transaction_steps.
  split.
  - apply page_ok_handleNext, page_ok_addToBlockedUsers.
    eapply page_ok_frame; [exact H|..]; by run_methods.
  - destruct (handleNext_app (exec (addToBlockedUsers targetUid)
                                 (exec (db_do (Op_report targetUid)) s))) as [-> _].
    cbn [uid].
    by destruct (addToBlockedUsers_spec targetUid (exec (db_do (Op_report targetUid)) s))
      as (_ & _ & _ & _ & _ & _ & _ & -> & _).
Qed.

Lemma react_page_ok e s s' :
  react e s = Some s' →
  page_ok (app s) (browser s) →
  page_ok (app s') (browser s') ∧ uid (app s') = uid (app s).
Proof.
  intros Hreact H. destruct e; simpl in Hreact; try done.
  - apply bind_Some in Hreact as (s0 & Htake & Hs'). injection Hs' as <-.
    destruct (take_task_frame _ _ _ Htake) as (_ & Ha & Hb & _).
    rewrite <- Ha, <- Hb in H. destruct (resume_page_ok k ok rnd s0 H) as [H1 H2].
    split; [done|]. by rewrite H2, Ha.
  - destruct (matchListener (app s)); [|done]. injection Hreact as <-.
    rewrite handleMatchFound_spec.
    destruct (truthy _ && _); [|done]. split; [|done].
    by eapply page_ok_frame; [exact H|..].
  - injection Hreact as <-. split; [by apply page_ok_handleNext|].
    by destruct (handleNext_app s) as [-> _].
  - injection Hreact as <-.
    split; [eapply page_ok_frame; [exact H|..]|]; by run_methods.
  - injection Hreact as <-.
    split; [eapply page_ok_frame; [exact H|..]|]; by run_methods.
  - destruct (peerConnection (app s)); [|done]. injection Hreact as <-.
    unfold handleConnectionError. rewrite !exec_bind.
    split; [by apply page_ok_setTimeout, page_ok_cleanup | by run_methods].
  - destruct (peerConnection (app s)); [|done]. injection Hreact as <-.
    unfold handleCallEnded. rewrite !exec_bind.
    split; [|by run_methods].
    apply page_ok_setTimeout; [done|]. apply page_ok_cleanup.
    eapply page_ok_frame; [exact H|..]; by run_methods.
  - apply bind_Some in Hreact as (s0 & Htake & Hs'). injection Hs' as <-.
    destruct (take_timer_page_ok _ _ _ Htake H) as [H0 Ha].
    split; [eapply page_ok_frame; [exact H0|..]; by run_methods|].
    by rewrite <- Ha.
Qed.

Lemma step_world_ok e w w' : step e w = Some w' → world_ok w → world_ok w'.
Proof.
  intros Hstep Hw.
  apply step_inv in Hstep as [(c & -> & Hfresh & ->)|[(dt & -> & _ & ->)|H]].
  - intros c' cl. cbn [unload w_clients].
    destruct (decide (c = c')) as [<-|Hne].
    + rewrite lookup_insert_eq. intros [= <-]. simpl. split; [done|].
      unfold page_ok, getBlockedUsers. simpl. split_and!; try constructor. done.
    + rewrite lookup_insert_ne by done. apply Hw.
  - exact Hw.
  - destruct H as (c & s & s' & _ & Hload & Hreact & ->).
    apply bind_Some in Hload as (cl0 & Hcl0 & Hs). injection Hs as <-.
    destruct (Hw c cl0 Hcl0) as [Huid Hok].
    destruct (react_page_ok _ _ _ Hreact Hok) as [Hok' Huid'].
    intros c' cl. cbn [unload w_clients].
    destruct (decide (c = c')) as [<-|Hne].
    + rewrite lookup_insert_eq. intros [= <-]. simpl. split; [|done].
      by rewrite Huid'.
    + rewrite lookup_insert_ne by done. apply Hw.
Qed.

Lemma run_world_ok es w w' : run es w = Some w' → world_ok w → world_ok w'.
Proof.
  revert w. induction es as [|e es IH]; intros w Hrun Hw.
  - by injection Hrun as <-.
  - change (run (e :: es) w) with (step e w ≫= run es) in Hrun.
    apply bind_Some in Hrun as (w1 & Hstep & Hrun).
    eapply IH; [exact Hrun|]. by eapply step_world_ok.
Qed.

Lemma skip_timers_at_most_one i l :
  NoDup (t_id <$> l) →
  Forall (λ x, t_kind x = Rejoin_skip → t_id x = i) l →
  (length (skip_timers l) ≤ 1)%nat.
Proof.
  unfold skip_timers. induction l as [|x l IH]; intros Hnd Hall; [simpl; lia|].
  apply Forall_cons in Hall as [Hx Hall]. rewrite fmap_cons in Hnd.
  apply NoDup_cons in Hnd as [Hnotin Hnd].
  rewrite filter_cons. destruct (decide (t_kind x = Rejoin_skip)) as [Hk|Hk]; [|by apply IH].
  assert (filter (λ y, t_kind y = Rejoin_skip) l = []) as ->; [|simpl; lia].
  apply skip_timers_none, Forall_forall. intros y Hy Hky. apply Hnotin.
  rewrite Forall_forall in Hall. rewrite (Hx Hk), <- (Hall y Hy Hky).
  by apply list_elem_of_fmap_2.
Qed.

(** X3. In every state that a run of any number of clients reaches, a client's
    block list has no duplicates and is exactly what its [localStorage]
    holds, so that a reload ([new VibeApp()]) starts with the same list. *)
Theorem block_list_survives_reload (es : list Event) (w : World) (c : string) (cl : Client) :
  run es empty_world = Some w →
  w_clients w !! c = Some cl →
  uid (c_app cl) = c
  ∧ NoDup (blockedUsers (c_app cl))
  ∧ blockedUsers (new_app c (c_browser cl)) = blockedUsers (c_app cl).
Proof.
  intros Hrun Hcl.
  assert (world_ok empty_world) as H0 by (by intros c' cl').
  destruct (run_world_ok _ _ _ Hrun H0 c cl Hcl) as (Huid & Hnd & Hst & _).
  by split_and!.
Qed.

(** X4. In every state that a run reaches, at most one rejoin timer of
    [handleNext] is pending for a client, and it is the one [matchTimeout]
    names: whatever the order of skips, timers and other events, skipping
    never piles up rejoins. *)
Theorem one_skip_timer_pending (es : list Event) (w : World) (c : string) (cl : Client) :
  run es empty_world = Some w →
  w_clients w !! c = Some cl →
  (length (skip_timers (timers (c_browser cl))) ≤ 1)%nat
  ∧ Forall (λ x, matchTimeout (c_app cl) = Some (t_id x)) (skip_timers (timers (c_browser cl))).
Proof.
  intros Hrun Hcl.
  assert (world_ok empty_world) as H0 by (by intros c' cl').
  destruct (run_world_ok _ _ _ Hrun H0 c cl Hcl) as (_ & _ & _ & _ & Hnd & Hskip & _).
  split.
  - destruct (matchTimeout (c_app cl)) as [i|] eqn:Hmt.
    + apply skip_timers_at_most_one with i; [done|].
      eapply Forall_impl; [exact Hskip|]. intros x Hx Hk. specialize (Hx Hk). by injection Hx.
    + rewrite skip_timers_none; [simpl; lia|].
      eapply Forall_impl; [exact Hskip|]. intros x Hx Hk. by specialize (Hx Hk).
  - apply Forall_forall. intros x [Hk Hx]%list_elem_of_filter.
    rewrite Forall_forall in Hskip. by apply Hskip.
Qed.

Lemma two_reports_ann : is_Some (run two_reports empty_world ≫= λ w, w_clients w !! ann).
Proof. vm_compute. eauto. Qed.

Lemma block_list_survives_reload_witness :
  ∃ w cl,
    run two_reports empty_world = Some w
    ∧ w_clients w !! ann = Some cl
    ∧ uid (c_app cl) = ann
    ∧ NoDup (blockedUsers (c_app cl))
    ∧ blockedUsers (new_app ann (c_browser cl)) = blockedUsers (c_app cl).
Proof.
  destruct two_reports_ann as [cl H]. apply bind_Some in H as (w & Hrun & Hcl).
  exists w, cl. split; [exact Hrun|]. split; [exact Hcl|].
  exact (block_list_survives_reload two_reports w ann cl Hrun Hcl).
Defined.

Lemma bob_skipped_bob : is_Some (run bob_skipped empty_world ≫= λ w, w_clients w !! bob).
Proof. vm_compute. eauto. Qed.

Lemma one_skip_timer_pending_witness :
  ∃ w cl,
    run bob_skipped empty_world = Some w
    ∧ w_clients w !! bob = Some cl
    ∧ (length (skip_timers (timers (c_browser cl))) ≤ 1)%nat
    ∧ Forall (λ x, matchTimeout (c_app cl) = Some (t_id x))
             (skip_timers (timers (c_browser cl))).
Proof.
  destruct bob_skipped_bob as [cl H]. apply bind_Some in H as (w & Hrun & Hcl).
  exists w, cl. split; [exact Hrun|]. split; [exact Hcl|].
  exact (one_skip_timer_pending bob_skipped w bob cl Hrun Hcl).
Defined.

(** ** The block list only grows *)

Lemma take_timer_frame id s s' :
  take_timer id s = Some s' → app s' = app s ∧ db s' = db s ∧ pending s' = pending s.
Proof.
  unfold take_timer. intros H. apply bind_Some in H as (t & _ & H).
  case_bool_decide; [|done]. by injection H as <-.
Qed.

Lemma react_blocked e s s' :
  react e s = Some s' → blockedUsers (app s) `prefix_of` blockedUsers (app s').
Proof.
  intros Hreact. destruct e; simpl in Hreact; try done.
  - apply bind_Some in Hreact as (s0 & Htake & Hs'). injection Hs' as <-.
    destruct (take_task_frame _ _ _ Htake) as (_ & <- & _).
    destruct k; try (assert (blockedUsers (app (exec (resume _ ok rnd) s0))
                             = blockedUsers (app s0)) as -> by (destruct ok; by run_methods);
                     done).
    destruct ok; [|done]. cbn [resume]. rewrite handleReport_transaction_steps.
    destruct (handleNext_app (exec (addToBlockedUsers targetUid)
                                 (exec (db_do (Op_report targetUid)) s0))) as [-> _].
    cbn [blockedUsers].
    destruct (addToBlockedUsers_spec targetUid (exec (db_do (Op_report targetUid)) s0))
      as (-> & _).
    cbn [exec db_do app snd]. case_bool_decide; [done|]. by apply prefix_app_r.
  - destruct (matchListener (app s)); [|done]. injection Hreact as <-.
    rewrite handleMatchFound_spec. by destruct (truthy _ && _).
  - injection Hreact as <-. by destruct (handleNext_app s) as [-> _].
  - injection Hreact as <-.
    by assert (blockedUsers (app (exec handleReport s)) = blockedUsers (app s)) as ->
      by by run_methods.
  - injection Hreact as <-.
    by assert (blockedUsers (app (exec handleOnline s)) = blockedUsers (app s)) as ->
      by by run_methods.
  - destruct (peerConnection (app s)); [|done]. injection Hreact as <-.
    by assert (blockedUsers (app (exec handleConnectionError s)) = blockedUsers (app s))
      as -> by by run_methods.
  - destruct (peerConnection (app s)); [|done]. injection Hreact as <-.
    by assert (blockedUsers (app (exec handleCallEnded s)) = blockedUsers (app s))
      as -> by by run_methods.
  - apply bind_Some in Hreact as (s0 & Htake & Hs'). injection Hs' as <-.
    by destruct (take_timer_frame id s s0 Htake) as (<- & _).
Qed.

Lemma step_blocked e w w' c cl :
  step e w = Some w' →
  w_clients w !! c = Some cl →
  ∃ cl', w_clients w' !! c = Some cl'
         ∧ blockedUsers (c_app cl) `prefix_of` blockedUsers (c_app cl').
Proof.
  intros Hstep Hcl.
  apply step_inv in Hstep as [(c0 & -> & Hfresh & ->)|[(dt & -> & _ & ->)|H]].
  - exists cl. cbn [unload w_clients]. rewrite lookup_insert_ne by congruence. done.
  - by exists cl.
  - destruct H as (c0 & s & s' & _ & Hload & Hreact & ->).
    apply bind_Some in Hload as (cl0 & Hcl0 & Hs). injection Hs as <-.
    cbn [unload w_clients]. destruct (decide (c0 = c)) as [->|Hne].
    + rewrite lookup_insert_eq. eexists. split; [done|]. cbn [c_app].
      rewrite Hcl in Hcl0. injection Hcl0 as <-.
      exact (react_blocked _ _ _ Hreact).
    + rewrite lookup_insert_ne by done. by exists cl.
Qed.

(** X5. Nothing unblocks: along every run a client stays, and its block list at
    any time is the beginning of its block list at any later time. *)
Theorem block_list_only_grows (es : list Event) (w w' : World) (c : string) (cl : Client) :
  run es w = Some w' →
  w_clients w !! c = Some cl →
  ∃ cl', w_clients w' !! c = Some cl'
         ∧ blockedUsers (c_app cl) `prefix_of` blockedUsers (c_app cl').
Proof.
  revert w cl. induction es as [|e es IH]; intros w cl Hrun Hcl.
  - injection Hrun as <-. by exists cl.
  - change (run (e :: es) w) with (step e w ≫= run es) in Hrun.
    apply bind_Some in Hrun as (w1 & Hstep & Hrun).
    destruct (step_blocked _ _ _ _ _ Hstep Hcl) as (cl1 & Hcl1 & Hpre1).
    destruct (IH _ _ Hrun Hcl1) as (cl' & Hcl' & Hpre).
    exists cl'. split; [done|]. by etrans.
Qed.

Lemma two_reports_blocked_early :
  (λ w, (blockedUsers ∘ c_app) <$> w_clients w !! ann)
    <$> run (take 5 two_reports) empty_world = Some (Some []).
Proof. vm_compute. reflexivity. Qed.

Lemma two_reports_blocked_late :
  (λ w, (blockedUsers ∘ c_app) <$> w_clients w !! ann)
    <$> run (take 5 two_reports ++ drop 5 two_reports) empty_world = Some (Some [bob]).
Proof. vm_compute. reflexivity. Qed.

Lemma block_list_only_grows_witness :
  ∃ w w' cl cl',
    run (take 5 two_reports) empty_world = Some w
    ∧ run (drop 5 two_reports) w = Some w'
    ∧ w_clients w !! ann = Some cl
    ∧ w_clients w' !! ann = Some cl'
    ∧ blockedUsers (c_app cl) `prefix_of` blockedUsers (c_app cl')
    ∧ blockedUsers (c_app cl') = [bob].
Proof.
  pose proof two_reports_blocked_early as Hearly.
  pose proof two_reports_blocked_late as Hlate.
  rewrite run_app in Hlate.
  destruct (run (take 5 two_reports) empty_world) as [w|] eqn:Hhead;
    [|discriminate Hearly].
  cbn [fmap option_fmap option_map mbind option_bind] in Hearly, Hlate.
  destruct (w_clients w !! ann) as [cl|] eqn:Hcl; [|discriminate Hearly].
  destruct (run (drop 5 two_reports) w) as [w'|] eqn:Hrun; [|discriminate Hlate].
  cbn [fmap option_fmap option_map] in Hlate.
  destruct (block_list_only_grows (drop 5 two_reports) w w' ann cl Hrun Hcl)
    as (cl' & Hcl' & Hprefix).
  rewrite Hcl' in Hlate. cbn [fmap option_fmap option_map] in Hlate.
  exists w, w', cl, cl'. split; [reflexivity|]. split; [exact Hrun|].
  split; [exact Hcl|]. split; [exact Hcl'|]. split; [exact Hprefix|].
  injection Hlate as Hlate. exact Hlate.
Defined.

(** ** Rooms are never removed *)

Lemma react_rooms e s s' r :
  react e s = Some s' →
  rooms (db s') !! r =
    if creates r e
    then Some (mkRoom (uid (app s)) (clock s)
                 [uid (app s); match e with
                               | E_resume _ (K_update _ other) _ _ => other
                               | _ => ""
                               end])
    else rooms (db s) !! r.
Proof.
  intros H. destruct e; simpl in H; try done.
  - destruct (take_task k s) as [s0|] eqn:Htake; simpl in H; [|done].
    injection H as <-.
    destruct (take_task_frame _ _ _ Htake) as (Hdb & Happ & _ & Hclock & _).
    rewrite <- Hdb, <- Happ, <- Hclock. clear Htake Hdb Happ Hclock.
    destruct k, ok; run_methods; subst; try done.
    all: by rewrite ?lookup_insert_eq, ?lookup_insert_ne by done.
  - destruct (matchListener (app s)); [|done]. injection H as <-. by run_methods.
  - injection H as <-. by run_methods.
  - injection H as <-. by run_methods.
  - injection H as <-. by run_methods.
  - destruct (peerConnection (app s)); [|done]. injection H as <-. by run_methods.
  - destruct (peerConnection (app s)); [|done]. injection H as <-. by run_methods.
  - destruct (take_timer id s) as [s0|] eqn:Htake; simpl in H; [|done].
    injection H as <-. by destruct (take_timer_frame _ _ _ Htake) as (_ & <- & _).
Qed.

Lemma step_rooms e w w' r :
  step e w = Some w' →
  (creates r e = false → rooms (w_db w') !! r = rooms (w_db w) !! r)
  ∧ (creates r e = true → is_Some (rooms (w_db w') !! r)).
Proof.
  intros H. apply step_inv in H as [(c & -> & _ & ->)|[(dt & -> & _ & ->)|H]]; [done..|].
  destruct H as (c & s & s' & _ & Hload & Hreact & ->).
  cbn [unload w_db]. rewrite (react_rooms _ _ _ r Hreact).
  apply bind_Some in Hload as (cl & _ & Hs). injection Hs as <-.
  destruct (creates r e); split; done.
Qed.

(** X6. No method removes a room: along every run a room that exists keeps
    existing, and it is the same record as long as no [createMatch] batch
    for its id is applied. Leaving, skipping and failing sessions leave
    their rooms in the database. *)
Theorem rooms_are_never_removed (es : list Event) (w w' : World) (r : string) (room : Room) :
  run es w = Some w' →
  rooms (w_db w) !! r = Some room →
  is_Some (rooms (w_db w') !! r)
  ∧ (Forall (λ e, creates r e = false) es → rooms (w_db w') !! r = Some room).
Proof.
  revert w room. induction es as [|e es IH]; intros w room Hrun Hroom.
  - injection Hrun as <-. by split; [eexists|].
  - change (run (e :: es) w) with (step e w ≫= run es) in Hrun.
    apply bind_Some in Hrun as (w1 & Hstep & Hrun).
    destruct (step_rooms _ _ _ r Hstep) as [Hsame Hnew].
    destruct (creates r e) eqn:Hc.
    + destruct (Hnew eq_refl) as [room1 Hroom1].
      destruct (IH _ _ Hrun Hroom1) as [Hsome _]. split; [done|].
      intros Hall. apply Forall_cons in Hall as [Hfalse _]. congruence.
    + rewrite <- (Hsame eq_refl) in Hroom.
      destruct (IH _ _ Hrun Hroom) as [Hsome Hkeep]. split; [done|].
      intros Hall. apply Forall_cons in Hall as [_ Hall]. by apply Hkeep.
Qed.

Lemma bob_skipped_room :
  (λ w, rooms (w_db w) !! room_b) <$> run (take 9 bob_skipped) empty_world
  = Some (Some (mkRoom bob t0 [bob; ann])).
Proof. vm_compute. reflexivity. Qed.

Lemma bob_skipped_rest : is_Some (run (take 9 bob_skipped ++ drop 9 bob_skipped) empty_world).
Proof. vm_compute. eauto. Qed.

Lemma rooms_are_never_removed_witness :
  ∃ w w',
    run (take 9 bob_skipped) empty_world = Some w
    ∧ run (drop 9 bob_skipped) w = Some w'
    ∧ rooms (w_db w) !! room_b = Some (mkRoom bob t0 [bob; ann])
    ∧ is_Some (rooms (w_db w') !! room_b).
Proof.
  pose proof bob_skipped_room as Hroom.
  pose proof bob_skipped_rest as [w' Hrest].
  rewrite run_app in Hrest.
  destruct (run (take 9 bob_skipped) empty_world) as [w|]; [|discriminate Hroom].
  cbn [fmap option_fmap option_map mbind option_bind] in Hroom, Hrest.
  injection Hroom as Hroom.
  exists w, w'. split; [reflexivity|]. split; [exact Hrest|]. split; [exact Hroom|].
  exact (proj1 (rooms_are_never_removed _ w w' room_b _ Hrest Hroom)).
Defined.

(** ** Reservations on entries that are gone or written anew *)

(** X7. A reservation on a client that has no queue entry commits, and creates
    an entry for that client that holds nothing but [reservedBy]; the client
    is in the queue again for everybody who reads it. *)
Theorem reserve_missing_entry (self other : string) (d : Store) :
  queue_get other (queue d) = None →
  committed self other d = true
  ∧ queue_get other (queue (exec_op (Op_reserve self other) d))
    = Some (mkQueueEntry None None (Some self))
  ∧ other ∈ queue_keys (queue (exec_op (Op_reserve self other) d)).
Proof.
  intros Hnone.
  assert (get_reservedBy other d = None) as Hfree by (unfold get_reservedBy; by rewrite Hnone).
  assert (exec_op (Op_reserve self other) d = set_reservedBy other self d) as ->
    by (unfold exec_op, transaction, reserve_update; by rewrite Hfree).
  split; [by apply reserve_free|].
  unfold set_reservedBy. cbn [queue]. rewrite Hnone. cbn [default qe_uid qe_timestamp].
  split; [apply queue_get_put_eq|].
  unfold queue_keys. generalize (mkQueueEntry None None (Some self)). intros e.
  clear Hnone Hfree. induction (queue d) as [|[k' e'] q IH]; simpl; [by apply list_elem_of_here|].
  destruct (String.compare other k') eqn:E; simpl;
    [by apply list_elem_of_here..|by apply list_elem_of_further].
Qed.

Lemma reserve_missing_entry_witness :
  queue_get ann (queue empty_store) = None
  ∧ committed cat ann empty_store = true
  ∧ queue_get ann (queue (exec_op (Op_reserve cat ann) empty_store))
    = Some (mkQueueEntry None None (Some cat)).
Proof.
  split; [reflexivity|].
  destruct (reserve_missing_entry cat ann empty_store eq_refl) as (H1 & H2 & _).
  exact (conj H1 H2).
Defined.

(** X8. [joinQueue] writes the whole entry: a client that joins again while
    somebody holds a reservation on it wipes the reservation, and the next
    reservation by anybody commits. Two clients can so both have reserved
    the same candidate. *)
Theorem rejoin_erases_reservation (first second other : string) (ts : Z) (d : Store) :
  let d1 := exec_op (Op_reserve first other) d in
  let d2 := exec_op (Op_queue_set other ts) d1 in
  is_Some (get_reservedBy other d1)
  ∧ queue_get other (queue d2) = Some (mkQueueEntry (Some other) (Some ts) None)
  ∧ committed second other d2 = true
  ∧ get_reservedBy other (exec_op (Op_reserve second other) d2) = Some second.
Proof.
  cbn zeta.
  assert (queue_get other (queue (exec_op (Op_queue_set other ts)
                                    (exec_op (Op_reserve first other) d)))
          = Some (mkQueueEntry (Some other) (Some ts) None)) as Hentry
    by apply queue_get_put_eq.
  assert (get_reservedBy other (exec_op (Op_queue_set other ts)
                                  (exec_op (Op_reserve first other) d)) = None) as Hfree
    by (unfold get_reservedBy; by rewrite Hentry).
  split_and!; [|done|by apply reserve_free..].
  destruct (get_reservedBy other d) as [holder|] eqn:Hcur.
  - destruct (reserve_taken first other d holder Hcur) as [_ ->]. by rewrite Hcur.
  - destruct (reserve_free first other d Hcur) as [_ ->]. done.
Qed.

(** X14. The batch of [createMatch] removes the candidate's queue entry and
    with it the reservation: once the batch is applied the candidate has its
    match row, and a reservation of it by anybody, whoever made the session,
    commits. *)
Theorem batch_reopens_candidate (self late other roomId : string) (now : Z) (d : Store) :
  let d' := exec_op (Op_update (createMatch_batch self roomId other now)) d in
  matches d' !! other = Some roomId
  ∧ queue_get other (queue d') = None
  ∧ committed late other d' = true
  ∧ get_reservedBy other (exec_op (Op_reserve late other) d') = Some late.
Proof.
  cbn zeta.
  assert (queue_get other
            (queue (exec_op (Op_update (createMatch_batch self roomId other now)) d)) = None)
    as Hgone by (simpl; apply queue_get_del_eq).
  assert (get_reservedBy other
            (exec_op (Op_update (createMatch_batch self roomId other now)) d) = None)
    as Hfree by (unfold get_reservedBy; by rewrite Hgone).
  split_and!; [|done|by apply reserve_free..].
  simpl. by rewrite lookup_insert_eq.
Qed.

(** ** The device id *)

(** X9. [generateUID] yields an id that is not empty and is stored; called again
    on what it stored (the next page load) it yields the same id and stores
    nothing new, whatever [Math.random] and the clock are by then. *)
Theorem generateUID_stable (stored : option string) (rnd rnd' : string) (now now' : Z) :
  let r := generateUID stored rnd now in
  r.1 ≠ "" ∧ r.2 = Some r.1 ∧ generateUID r.2 rnd' now' = r.
Proof.
  assert (∀ u, u ≠ "" → truthy (Some u) = true) as Htruthy
    by (intros u Hu; simpl; by apply negb_true_iff, String.eqb_neq).
  unfold generateUID. destruct (truthy stored) eqn:Hstored; cbn zeta; cbn [fst snd].
  - destruct stored as [u|]; [|done]. cbn [default].
    assert (u ≠ "") as Hu by (simpl in Hstored; by apply negb_true_iff, String.eqb_neq in Hstored).
    split; [done|]. split; [done|]. by rewrite Hstored.
  - assert ("user_" +:+ rnd +:+ pretty now ≠ "") as Hu by done.
    split; [done|]. split; [done|]. by rewrite (Htruthy _ Hu).
Qed.

(** ** Rejoins that are not debounced *)

Lemma handleConnectionError_page s :
  let s' := exec handleConnectionError s in
  browser s' =
    mkBrowser (stored_blocked (browser s))
      (timers (browser s) ++ [mkTimer (next_timer (browser s)) (clock s + 2000) Rejoin_error])
      (S (next_timer (browser s))) (fired (browser s))
  ∧ matchTimeout (app s') = matchTimeout (app s)
  ∧ clock s' = clock s.
Proof. by run_methods. Qed.

(** X10. The retry that [handleConnectionError] schedules is not the debounced
    one: a skip right after a connection failure leaves the 2000 ms retry
    pending beside its own 500 ms rejoin, so [joinQueue] will run twice. *)
Theorem error_retry_survives_skip (s : Sys) :
  page_ok (app s) (browser s) →
  let s' := exec handleNext (exec handleConnectionError s) in
  let n := next_timer (browser s) in
  mkTimer n (clock s + 2000) Rejoin_error ∈ timers (browser s')
  ∧ mkTimer (S n) (clock s + 500) Rejoin_skip ∈ timers (browser s')
  ∧ matchTimeout (app s') = Some (S n).
Proof.
  intros (_ & _ & _ & _ & _ & Hbound). cbn zeta.
  destruct (handleConnectionError_page s) as (Hb & Hm & Hc).
  destruct (handleNext_timers (exec handleConnectionError s)) as (Hb' & Hm' & _).
  rewrite Hb', Hb, Hm, Hc. cbn [timers next_timer]. split_and!; [| |by rewrite Hm', Hb].
  - apply elem_of_app. left.
    destruct (matchTimeout (app s)) as [i|] eqn:Hi.
    + apply list_elem_of_filter. split; [|apply elem_of_app; right; by apply list_elem_of_here].
      simpl. specialize (Hbound i eq_refl). lia.
    + apply elem_of_app. right. by apply list_elem_of_here.
  - apply elem_of_app. right. by apply list_elem_of_here.
Qed.

Lemma error_retry_survives_skip_witness :
  page_ok (app calling) (browser calling)
  ∧ mkTimer 0 (t0 + 2000) Rejoin_error
    ∈ timers (browser (exec handleNext (exec handleConnectionError calling)))
  ∧ mkTimer 1 (t0 + 500) Rejoin_skip
    ∈ timers (browser (exec handleNext (exec handleConnectionError calling))).
Proof.
  assert (page_ok (app calling) (browser calling)) as Hok.
  { unfold page_ok, getBlockedUsers. simpl. split_and!; try constructor. done. }
  destruct (error_retry_survives_skip calling Hok) as (H1 & H2 & _).
  split; [exact Hok|]. split; [exact H1 | exact H2].
Defined.

(** ** The listeners run in turn *)

Lemma on_answer_closed v r :
  is_Some (currentRemoteDescription (pc r)) → on_answer v r = r.
Proof. intros [d Hd]. unfold on_answer. rewrite Hd. by destruct v. Qed.

Lemma on_offer_closed v r :
  is_Some (currentRemoteDescription (pc r)) → on_offer v r = r.
Proof. intros [d Hd]. unfold on_offer. rewrite Hd. by destruct v. Qed.

Lemma deliveries_closed_caller vs r :
  is_Some (currentRemoteDescription (pc r)) → foldl caller_step r (Deliver <$> vs) = r.
Proof.
  intros H. induction vs as [|v vs IH]; [done|].
  cbn [fmap list_fmap foldl caller_step]. by rewrite on_answer_closed.
Qed.

Lemma deliveries_closed_callee vs r :
  is_Some (currentRemoteDescription (pc r)) → foldl callee_step r (Deliver <$> vs) = r.
Proof.
  intros H. induction vs as [|v vs IH]; [done|].
  cbn [fmap list_fmap foldl callee_step]. by rewrite on_offer_closed.
Qed.

(** X11. When each run of a listener has completed before the next delivery, the
    value is handed over once. The caller hands the answer and the exchange
    is complete; the callee hands the offer, creates an answer, sets it and
    writes that one answer to the room; on both sides every later delivery,
    of whatever value, changes nothing. *)
Theorem listeners_in_turn_hand_once :
  (∀ (offer answer created : Sdp) (vs : list (option Sdp)),
     sdp_type answer ≠ "offer" →
     let r := foldl caller_step (caller_side offer) [Deliver (Some answer); Resolve created] in
     handed r = [answer]
     ∧ currentRemoteDescription (pc r) = Some answer
     ∧ currentLocalDescription (pc r) = Some offer
     ∧ awaits r = []
     ∧ foldl caller_step r (Deliver <$> vs) = r)
  ∧ (∀ (offer created : Sdp) (vs : list (option Sdp)),
       sdp_type offer = "offer" → sdp_type created ≠ "offer" →
       let r := foldl callee_step callee_side
                  [Deliver (Some offer); Resolve created; Resolve created; Resolve created] in
       handed r = [offer]
       ∧ sent r = [created]
       ∧ currentRemoteDescription (pc r) = Some offer
       ∧ currentLocalDescription (pc r) = Some created
       ∧ awaits r = []
       ∧ foldl callee_step r (Deliver <$> vs) = r).
Proof.
  split.
  - intros offer answer created vs Hanswer. cbn zeta.
    apply String.eqb_neq in Hanswer.
    assert (foldl caller_step (caller_side offer) [Deliver (Some answer); Resolve created]
            = mkSide (mkPc Stable None None (Some offer) (Some answer)) [answer] [] []) as ->.
    { cbn [foldl caller_step]. unfold caller_side, on_answer, resolve, settle. simpl.
      by rewrite Hanswer. }
    split_and!; try done. by apply deliveries_closed_caller.
  - intros offer created vs Hoffer Hcreated. cbn zeta.
    apply String.eqb_neq in Hcreated.
    assert (foldl callee_step callee_side
              [Deliver (Some offer); Resolve created; Resolve created; Resolve created]
            = mkSide (mkPc Stable None None (Some created) (Some offer)) [offer] [] [created])
      as ->.
    { cbn [foldl callee_step]. unfold callee_side, on_offer, resolve, settle. simpl.
      rewrite Hoffer. simpl. by rewrite Hcreated. }
    split_and!; try done. by apply deliveries_closed_callee.
Qed.

Lemma listeners_in_turn_hand_once_witness :
  handed (foldl callee_step callee_side
            [Deliver (Some an_offer); Resolve an_answer; Resolve an_answer; Resolve an_answer;
             Deliver (Some an_offer)])
  = [an_offer]
  ∧ sent (foldl callee_step callee_side
            [Deliver (Some an_offer); Resolve an_answer; Resolve an_answer; Resolve an_answer;
             Deliver (Some an_offer)])
    = [an_answer].
Proof.
  assert (sdp_type an_answer ≠ "offer") as Hne by discriminate.
  destruct (proj2 listeners_in_turn_hand_once an_offer an_answer [Some an_offer] eq_refl Hne)
    as (Hhanded & Hsent & _ & _ & _ & Hlater).
  change (handed (foldl callee_step
                    (foldl callee_step callee_side
                       [Deliver (Some an_offer); Resolve an_answer; Resolve an_answer;
                        Resolve an_answer])
                    (Deliver <$> [Some an_offer])) = [an_offer]
          ∧ sent (foldl callee_step
                    (foldl callee_step callee_side
                       [Deliver (Some an_offer); Resolve an_answer; Resolve an_answer;
                        Resolve an_answer])
                    (Deliver <$> [Some an_offer])) = [an_answer]).
  rewrite Hlater. split; [exact Hhanded | exact Hsent].
Defined.

(** ** A skip while a reservation is in flight *)

Lemma remove_first_elem k l : k ∈ l → is_Some (remove_first k l).
Proof.
  induction l as [|k' l IH]; intros Hin; [by apply elem_of_nil in Hin|].
  simpl. destruct (decide (k = k')); [done|].
  apply elem_of_cons in Hin as [?|Hin]; [done|].
  by destruct (IH Hin) as [l' ->].
Qed.

Lemma handleNext_rest s :
  pending (exec handleNext s) = pending s
  ∧ uid (app (exec handleNext s)) = uid (app s)
  ∧ queue (db (exec handleNext s)) = queue_del (uid (app s)) (queue (db s)).
Proof. by run_methods. Qed.

Lemma attemptMatch_won roomId otherUid s :
  get_reservedBy otherUid (db s) = None →
  exec (attemptMatch_transaction true roomId otherUid) s =
    mkSys (set_reservedBy otherUid (uid (app s)) (db s)) (app s) (browser s)
          (pending s ++ [K_update roomId otherUid]) (clock s)
          (trace s ++ [Op_reserve (uid (app s)) otherUid]).
Proof. intros Hg. unfold_methods. simpl. by rewrite !Hg. Qed.

Lemma createMatch_update_session roomId otherUid s :
  let s' := exec (createMatch_update true roomId otherUid) s in
  matches (db s') !! uid (app s) = Some roomId
  ∧ matches (db s') !! otherUid = Some roomId
  ∧ currentRoom (app s') = Some roomId
  ∧ peerConnection (app s') = Some Caller
  ∧ matchTimeout (app s') = matchTimeout (app s)
  ∧ browser s' = browser s.
Proof.
  unfold_methods. simpl. split_and!; try done.
  - destruct (decide (uid (app s) = otherUid)) as [->|Hne].
    + by rewrite lookup_insert_eq.
    + by rewrite lookup_insert_ne, lookup_insert_eq.
  - by rewrite lookup_insert_eq.
Qed.

(** X12. [handleNext] does not cancel a reservation of [attemptMatch] that is in
    flight. When the user skips while the transaction on a free entry of
    somebody else is pending, the transaction still commits and the batch is
    still written: the client ends in the new room as caller, with the
    rejoin timer of the skip pending beside the session. *)
Theorem skip_keeps_reservation (s : Sys) (roomId other : string) :
  K_reserve roomId other ∈ pending s →
  other ≠ uid (app s) →
  get_reservedBy other (db s) = None →
  ∃ s1 s2 s3,
    react (E_next (uid (app s))) s = Some s1
    ∧ react (E_resume (uid (app s)) (K_reserve roomId other) true "") s1 = Some s2
    ∧ react (E_resume (uid (app s)) (K_update roomId other) true "") s2 = Some s3
    ∧ matches (db s3) !! uid (app s) = Some roomId
    ∧ matches (db s3) !! other = Some roomId
    ∧ rooms (db s3) !! roomId = Some (mkRoom (uid (app s)) (clock s) [uid (app s); other])
    ∧ currentRoom (app s3) = Some roomId
    ∧ peerConnection (app s3) = Some Caller
    ∧ matchTimeout (app s3) = Some (next_timer (browser s))
    ∧ mkTimer (next_timer (browser s)) (clock s + 500) Rejoin_skip ∈ timers (browser s3).
Proof.
  intros Hin Hne Hfree.
  destruct (handleNext_rest s) as (Hp & Hu & Hq).
  destruct (handleNext_timers s) as (Hb & Hm & Hc).
  set (s1 := exec handleNext s) in *.
  assert (get_reservedBy other (db s1) = None) as Hfree1.
  { unfold get_reservedBy in *. by rewrite Hq, queue_get_del_ne. }
  destruct (remove_first_elem _ _ Hin) as [l Hl].
  set (s1' := mkSys (db s1) (app s1) (browser s1) l (clock s1) (trace s1)).
  assert (take_task (K_reserve roomId other) s1 = Some s1') as Ht1
    by (unfold take_task; by rewrite Hp, Hl).
  pose proof (attemptMatch_won roomId other s1' Hfree1) as Hs2.
  set (s2 := exec (attemptMatch_transaction true roomId other) s1') in *.
  destruct (remove_first_last (K_update roomId other) l) as [l' Hl'].
  set (s2' := mkSys (db s2) (app s2) (browser s2) l' (clock s2) (trace s2)).
  assert (take_task (K_update roomId other) s2 = Some s2') as Ht2.
  { unfold take_task. replace (pending s2) with (l ++ [K_update roomId other])
      by (by rewrite Hs2). by rewrite Hl'. }
  destruct (createMatch_update_session roomId other s2') as (M1 & M2 & M3 & M4 & M5 & M6).
  exists s1, s2, (exec (createMatch_update true roomId other) s2').
  assert (app s2' = app s1 ∧ browser s2' = browser s1 ∧ clock s2' = clock s1) as (Ha & Hb2 & Hc2)
    by (unfold s2'; by rewrite Hs2).
  split_and!.
  - done.
  - cbn [react]. by rewrite Ht1.
  - cbn [react]. by rewrite Ht2.
  - by rewrite <- Hu, <- Ha.
  - done.
  - unfold_methods. simpl. rewrite lookup_insert_eq. f_equal.
    by rewrite <- Hu, <- Ha, <- Hc, <- Hc2.
  - done.
  - done.
  - by rewrite M5, Ha.
  - rewrite M6, Hb2, Hb. cbn [timers]. apply elem_of_app. right. by apply list_elem_of_here.
Qed.

Lemma skip_keeps_reservation_witness :
  K_reserve room_a1 bob ∈ pending reserving
  ∧ ∃ s3, matches (db s3) !! ann = Some room_a1
          ∧ currentRoom (app s3) = Some room_a1
          ∧ mkTimer 0 (t0 + 500) Rejoin_skip ∈ timers (browser s3).
Proof.
  assert (K_reserve room_a1 bob ∈ pending reserving) as Hin by apply list_elem_of_here.
  assert (bob ≠ uid (app reserving)) as Hne by discriminate.
  assert (get_reservedBy bob (db reserving) = None) as Hfree by reflexivity.
  destruct (skip_keeps_reservation reserving room_a1 bob Hin Hne Hfree)
    as (s1 & s2 & s3 & _ & _ & _ & Hm & _ & _ & Hr & _ & _ & Ht).
  split; [exact Hin|]. exists s3. split; [exact Hm|]. split; [exact Hr | exact Ht].
Defined.

(** ** Joining a queue with nobody to go for *)

Lemma findPartner_none keys self blocked :
  (∀ k, k ∈ keys → k = self ∨ k ∈ blocked) → findPartner keys self blocked = None.
Proof.
  unfold findPartner, otherUsers. induction keys as [|k keys IH]; intros H; [done|].
  rewrite filter_cons. destruct (decide (k ≠ self ∧ k ∉ blocked)) as [[H1 H2]|_].
  - destruct (H k) as [?|?]; [by apply list_elem_of_here | done | done].
  - apply IH. intros k' Hk'. apply H. by apply list_elem_of_further.
Qed.

Lemma queue_keys_put k c e q :
  k ∈ queue_keys (queue_put c e q) → k = c ∨ k ∈ queue_keys q.
Proof.
  unfold queue_keys. induction q as [|[k' e'] q IH]; simpl.
  - intros H. apply elem_of_cons in H as [?|H]; [by left | by apply elem_of_nil in H].
  - destruct (String.compare c k') eqn:E; simpl; intros H.
    + apply elem_of_cons in H as [?|H]; [by left | right; by apply list_elem_of_further].
    + apply elem_of_cons in H as [?|H]; [by left | by right].
    + apply elem_of_cons in H as [->|H]; [right; by apply list_elem_of_here|].
      destruct (IH H) as [?|?]; [by left | right; by apply list_elem_of_further].
Qed.

Lemma remove_first_perm k l l' : remove_first k l = Some l' → l ≡ₚ k :: l'.
Proof.
  revert l'. induction l as [|k' l IH]; intros l'; simpl; [done|].
  destruct (decide (k = k')) as [->|Hne].
  - by intros [= ->].
  - intros H. apply fmap_Some in H as (l0 & Hl0 & ->).
    rewrite (IH _ Hl0). apply Permutation_swap.
Qed.

Lemma remove_first_spawned k l l' : remove_first k (l ++ [k]) = Some l' → l' ≡ₚ l.
Proof.
  intros H. apply remove_first_perm in H.
  apply (Permutation_cons_inv (a := k)). by rewrite <- H, Permutation_app_comm.
Qed.

(** X13. A client for whom the queue holds nobody (every key is its own or
    blocked) runs [joinQueue] to its end: its entry is written, with its uid,
    the time and no reservation, as the only database operation; no
    reservation is attempted; the client listens on its match row, with the
    same calls in flight as before. *)
Theorem joinQueue_alone_waits (s : Sys) (rnd : string) :
  (∀ k, k ∈ queue_keys (queue (db s)) → k = uid (app s) ∨ k ∈ blockedUsers (app s)) →
  ∃ s2 s3,
    react (E_resume (uid (app s)) K_queue_set true "") (exec joinQueue s) = Some s2
    ∧ react (E_resume (uid (app s)) K_queue_once true rnd) s2 = Some s3
    ∧ queue_get (uid (app s)) (queue (db s3))
      = Some (mkQueueEntry (Some (uid (app s))) (Some (clock s)) None)
    ∧ trace s3 = trace s ++ [Op_queue_set (uid (app s)) (clock s)]
    ∧ matchListener (app s3) = true
    ∧ currentRoom (app s3) = currentRoom (app s)
    ∧ matches (db s3) = matches (db s)
    ∧ rooms (db s3) = rooms (db s)
    ∧ pending s3 ≡ₚ pending s.
Proof.
  intros Halone.
  destruct (remove_first_last K_queue_set (pending s)) as [l Hl].
  destruct (remove_first_last K_queue_once l) as [l' Hl'].
  set (e := mkQueueEntry (Some (uid (app s))) (Some (clock s)) None).
  set (d := mkStore (queue_put (uid (app s)) e (queue (db s))) (matches (db s))
              (rooms (db s)) (reports (db s))).
  set (s2 := mkSys d (app s) (browser s) (l ++ [K_queue_once]) (clock s)
               (trace s ++ [Op_queue_set (uid (app s)) (clock s)])).
  set (s3 := mkSys d (set_matchListener true (app s)) (browser s) l' (clock s)
               (trace s ++ [Op_queue_set (uid (app s)) (clock s)])).
  assert (findPartner (queue_keys (queue d)) (uid (app s)) (blockedUsers (app s)) = None)
    as Hnone.
  { apply findPartner_none. intros k Hk. apply queue_keys_put in Hk as [?|?]; [by left|].
    by apply Halone. }
  exists s2, s3. split_and!; try done.
  - unfold react, take_task, exec, joinQueue, spawn. simpl. rewrite Hl. simpl.
    unfold_methods. by simpl.
  - unfold react, take_task, s2. simpl. rewrite Hl'. simpl.
    unfold exec, resume, joinQueue_once. unfold mbind, M_bind, get. cbn [db app queue].
    rewrite Hnone. by unfold_methods.
  - apply queue_get_put_eq.
  - simpl. apply remove_first_spawned in Hl, Hl'. by rewrite Hl', Hl.
Qed.

Lemma joinQueue_alone_waits_witness :
  ∃ s3, queue_get bob (queue (db s3)) = Some (mkQueueEntry (Some bob) (Some t0) None)
        ∧ matchListener (app s3) = true.
Proof.
  assert (∀ k, k ∈ queue_keys (queue (db (mkSys empty_store (new_app bob new_browser)
                                              new_browser [] t0 [])))
               → k = bob ∨ k ∈ @nil string) as Halone.
  { intros k Hk. by apply elem_of_nil in Hk. }
  destruct (joinQueue_alone_waits
              (mkSys empty_store (new_app bob new_browser) new_browser [] t0 []) "" Halone)
    as (s2 & s3 & _ & _ & Hq & _ & Hl & _).
  exists s3. split; [exact Hq | exact Hl].
Defined.
